(** * X_Agent: sentiment aggregation queries, report selection and API client

    A shallow embedding of the parts of the repository that carry logic:

    - the relational schema ([CREATE TABLE analyses], [CREATE TABLE tweets]);
    - the "Monthly Analysis" and "Weekly Analysis" SQL queries, which bucket
      the tweets of a user by period and compute the three sentiment ratios;
    - the front-end types [Tweet], [TimeSeriesData], [SentimentReport];
    - the API client ([getUserTweets], [getWeeklyAnalysis],
      [getSentimentReports], [analyzeTweets]).

    The report builder (top lists per label) and the construction of items
    from the store live in the Python back end, which is not among the
    sources; they are modelled from the specification and marked as such. *)

From Stdlib Require Import ZArith QArith Qabs List String Ascii Bool Lia.
From Stdlib Require Import Permutation Sorted Lqa.
Import ListNotations.

Open Scope Z_scope.

(** ** Errors and results *)

(** The SQLSTATE condition that the modelled queries could raise. *)
Inductive sql_error : Type :=
| division_by_zero.

Inductive result (A : Type) : Type :=
| Ok (a : A)
| Err (e : sql_error).

Arguments Ok {A} a.
Arguments Err {A} e.

Definition bind {A B : Type} (r : result A) (k : A -> result B) : result B :=
  match r with
  | Ok a => k a
  | Err e => Err e
  end.

Notation "x <- r ;; k" := (bind r (fun x => k))
  (at level 61, r at next level, right associativity).

Fixpoint mapM {A B : Type} (f : A -> result B) (l : list A) : result (list B) :=
  match l with
  | [] => Ok []
  | a :: t => b <- f a ;; bs <- mapM f t ;; Ok (b :: bs)
  end.

(** ** PostgreSQL [numeric] division

    The ratios are computed as [SUM(...)::decimal / COUNT( * )]: a division of
    two [numeric] values of display scale 0.  The engine picks the scale of
    the quotient ([select_div_scale]) so that it carries at least sixteen
    significant digits, and rounds the exact quotient to that scale, half
    away from zero.  A zero divisor raises [division_by_zero]. *)
Module Numeric.

Definition NBASE : Z := 10000.
Definition DEC_DIGITS : Z := 4.
Definition NUMERIC_MIN_SIG_DIGITS : Z := 16.
Definition NUMERIC_MIN_DISPLAY_SCALE : Z := 0.
Definition NUMERIC_MAX_DISPLAY_SCALE : Z := 1000.

(** A value [unscaled / 10 ^ dscale]. *)
Record numeric : Type := mk_numeric { unscaled : Z; dscale : Z }.

Definition value (n : numeric) : Q := unscaled n # Z.to_pos (10 ^ dscale n).

Definition of_int (n : Z) : numeric := mk_numeric n 0.

(** Weight of the leading base-[NBASE] digit of [n] (for [0 <= n]);
    [fuel] bounds the number of digits. *)
Fixpoint weight_fuel (fuel : nat) (n : Z) : Z :=
  match fuel with
  | O => 0
  | S f => if n <? NBASE then 0 else 1 + weight_fuel f (n / NBASE)
  end.

Definition weight (n : Z) : Z :=
  weight_fuel (S (Z.to_nat (Z.log2 (Z.abs n)))) (Z.abs n).

Definition firstdigit (n : Z) : Z := Z.abs n / NBASE ^ weight n.

Definition select_div_scale (var1 var2 : Z) : Z :=
  let qweight := weight var1 - weight var2 in
  let qweight :=
    if firstdigit var1 <=? firstdigit var2 then qweight - 1 else qweight in
  let rscale := NUMERIC_MIN_SIG_DIGITS - qweight * DEC_DIGITS in
  let rscale := Z.max rscale 0 in  (* both operands have display scale 0 *)
  let rscale := Z.max rscale NUMERIC_MIN_DISPLAY_SCALE in
  Z.min rscale NUMERIC_MAX_DISPLAY_SCALE.

(** [n / d] rounded to the nearest integer, ties away from zero. *)
Definition round_div (n d : Z) : Z :=
  Z.sgn n * Z.sgn d * ((2 * Z.abs n + Z.abs d) / (2 * Z.abs d)).

(** The quotient at a given result scale. *)
Definition div_var (var1 var2 rscale : Z) : numeric :=
  mk_numeric (round_div (var1 * 10 ^ rscale) var2) rscale.

Definition div (var1 var2 : Z) : result numeric :=
  if var2 =? 0 then Err division_by_zero
  else Ok (div_var var1 var2 (select_div_scale var1 var2)).

End Numeric.


(** ** Timestamps and [date_trunc]

    A [timestamptz] is a count of microseconds since 2000-01-01 00:00:00 UTC.
    [date_trunc(field, timestamptz)] works in the time zone of the session
    (the [TimeZone] setting): the instant is turned into the wall-clock time
    of that zone, the wall-clock time is truncated (weeks start on Monday),
    and the result is turned back into an instant with the offset that the
    zone has at the truncated wall-clock time. *)
Module Timestamp.

Definition timestamptz : Type := Z.

Definition USECS_PER_DAY : Z := 86400000000.

(** Period types, as listed by the [CHECK] constraint of
    [sentiment_timeseries.period_type]. *)
Inductive period_type : Type := day | week | month.

(** A time zone, as the engine's zone data give it: the offset east of UTC
    (in microseconds) in effect at an instant, and the offset the engine
    settles on for a wall-clock time of the zone. *)
Record time_zone : Type := mk_time_zone {
  offset_at : timestamptz -> Z;
  offset_of_local : Z -> Z
}.

(** A zone without daylight saving: one offset throughout. *)
Definition fixed_zone (offset : Z) : time_zone :=
  mk_time_zone (fun _ => offset) (fun _ => offset).

Definition UTC : time_zone := fixed_zone 0.

(** Days since 2000-01-01 of the date that contains the wall-clock time
    [t]. *)
Definition date_of (t : Z) : Z := t / USECS_PER_DAY.

(** Day of the month (1..31) of a day number, by the usual era/year-of-era
    decomposition of the proleptic Gregorian calendar. *)
Definition day_of_month (d : Z) : Z :=
  let z := d + 10957 + 719468 in
  let doe := z mod 146097 in
  let yoe := (doe - doe / 1460 + doe / 36524 - doe / 146096) / 365 in
  let doy := doe - (365 * yoe + yoe / 4 - yoe / 100) in
  let mp := (5 * doy + 2) / 153 in
  doy - (153 * mp + 2) / 5 + 1.

(** 2000-01-03 (day 2) was a Monday. *)
Definition day_of_week (d : Z) : Z := (d + 5) mod 7.

(** Truncation of a wall-clock time. *)
Definition truncate (field : period_type) (t : Z) : Z :=
  let d := date_of t in
  match field with
  | day => d * USECS_PER_DAY
  | week => (d - day_of_week d) * USECS_PER_DAY
  | month => (d - (day_of_month d - 1)) * USECS_PER_DAY
  end.

Definition date_trunc (tz : time_zone) (field : period_type) (ts : timestamptz)
  : timestamptz :=
  let wall_clock := truncate field (ts + offset_at tz ts) in
  wall_clock - offset_of_local tz wall_clock.

End Timestamp.

Export Timestamp(timestamptz, period_type, day, week, month, time_zone, date_trunc).

(** ** The relational schema

    [CREATE TABLE analyses] and [CREATE TABLE tweets].  A column without
    [NOT NULL] (and that is no primary key) is nullable, hence an [option].
    Neither [tweets.sentiment] nor [tweets.sentiment_score] carries a [CHECK]
    constraint.  [analyses.query_parameters] (JSONB) is left out. *)
Module analyses.

Record row : Type := mk_row {
  analysis_id : Z;                              (* SERIAL PRIMARY KEY *)
  username : string;                            (* VARCHAR(255) NOT NULL *)
  analysis_timestamp : option timestamptz;
  positive_sentiment_percentage : option Q;     (* NUMERIC *)
  neutral_sentiment_percentage : option Q;      (* NUMERIC *)
  negative_sentiment_percentage : option Q;     (* NUMERIC *)
  tweet_count : option Z                        (* INTEGER *)
}.

End analyses.

Module tweets.

Record row : Type := mk_row {
  tweet_id : Z;                                 (* BIGINT PRIMARY KEY *)
  analysis_id : option Z;                       (* REFERENCES analyses *)
  type : option string;                         (* VARCHAR(50) *)
  username : option string;                     (* VARCHAR(255) *)
  text : option string;                         (* TEXT *)
  created_at : option timestamptz;              (* TIMESTAMP WITH TIME ZONE *)
  sentiment : option string;                    (* VARCHAR(50) *)
  sentiment_score : option Q                    (* NUMERIC *)
}.

End tweets.

Record database : Type := mk_database {
  tbl_analyses : list analyses.row;
  tbl_tweets : list tweets.row
}.

(** ** Relational operators used by the two queries *)

(** SQL [=] between a non-null integer and a nullable one: true only when
    the right side is present and equal. *)
Definition eq_int (a : Z) (b : option Z) : bool :=
  match b with
  | Some v => a =? v
  | None => false
  end.

(** SQL [=] between a nullable text column and a literal. *)
Definition eq_text (c : option string) (lit : string) : bool :=
  match c with
  | Some v => String.eqb v lit
  | None => false
  end.

Definition joined_row : Type := (analyses.row * tweets.row)%type.

(** [FROM analyses AS a JOIN tweets AS t ON a.analysis_id = t.analysis_id] *)
Definition JOIN (d : database) : list joined_row :=
  flat_map
    (fun a =>
       map (pair a)
         (filter (fun t => eq_int (analyses.analysis_id a) (tweets.analysis_id t))
            (tbl_tweets d)))
    (tbl_analyses d).

(** [WHERE a.username = '...'] *)
Definition WHERE_username (u : string) (rows : list joined_row) : list joined_row :=
  filter (fun r => String.eqb (analyses.username (fst r)) u) rows.

(** Grouping keys are nullable timestamps: [date_trunc] of NULL is NULL, and
    all NULLs fall into one group. *)
Definition key : Type := option timestamptz.

Definition key_eqb (a b : key) : bool :=
  match a, b with
  | Some x, Some y => x =? y
  | None, None => true
  | _, _ => false
  end.

(** Ascending order of [ORDER BY]: NULLs come last. *)
Definition key_ltb (a b : key) : bool :=
  match a, b with
  | Some x, Some y => x <? y
  | Some _, None => true
  | None, _ => false
  end.

(** [date_trunc(field, t.created_at)], in the session's time zone [tz] *)
Definition period_start (tz : time_zone) (field : period_type) (r : joined_row) : key :=
  option_map (date_trunc tz field) (tweets.created_at (snd r)).

(** The distinct keys, in order of first occurrence. *)
Fixpoint distinct (ks : list key) : list key :=
  match ks with
  | [] => []
  | k :: t => k :: filter (fun k' => negb (key_eqb k k')) (distinct t)
  end.

(** [GROUP BY 1]: one group per distinct key, holding the rows with that key. *)
Definition GROUP_BY {R : Type} (f : R -> key) (rows : list R) : list (key * list R) :=
  map (fun k => (k, filter (fun r => key_eqb (f r) k) rows)) (distinct (map f rows)).

(** [COUNT( * )] *)
Definition COUNT {R : Type} (g : list R) : Z := Z.of_nat (List.length g).

(** [SUM(e)] over a group (groups are never empty, so the NULL that SQL
    gives for an empty input plays no role). *)
Definition SUM {R : Type} (e : R -> Z) (g : list R) : Z :=
  fold_right (fun r acc => e r + acc) 0 g.

(** [CASE WHEN t.sentiment = lbl THEN 1 ELSE 0 END] *)
Definition CASE_sentiment (lbl : string) (r : joined_row) : Z :=
  if eq_text (tweets.sentiment (snd r)) lbl then 1 else 0.

(** Stable insertion sort; [before y x] says that [y] must precede [x]. *)
Fixpoint insert_by {A : Type} (before : A -> A -> bool) (x : A) (l : list A) : list A :=
  match l with
  | [] => [x]
  | y :: t => if before y x then y :: insert_by before x t else x :: l
  end.

Fixpoint sort_by {A : Type} (before : A -> A -> bool) (l : list A) : list A :=
  match l with
  | [] => []
  | x :: t => insert_by before x (sort_by before t)
  end.

(** [x] may stand in front of [y]: [y] is not required to precede [x]. *)
Definition may_precede {A : Type} (before : A -> A -> bool) (x y : A) : Prop :=
  before y x = false.

(** ** The analysis queries *)

(** One output row ([TimeSeriesData] in the front end's [types.ts]). *)
Record TimeSeriesData : Type := mk_TimeSeriesData {
  time_period : key;
  total_tweets : Z;
  positive_ratio : Numeric.numeric;
  neutral_ratio : Numeric.numeric;
  negative_ratio : Numeric.numeric
}.

(** The select list, evaluated on one group. *)
Definition select_bucket (g : key * list joined_row) : result TimeSeriesData :=
  let rows := snd g in
  p <- Numeric.div (SUM (CASE_sentiment "positive") rows) (COUNT rows) ;;
  n <- Numeric.div (SUM (CASE_sentiment "neutral") rows) (COUNT rows) ;;
  g' <- Numeric.div (SUM (CASE_sentiment "negative") rows) (COUNT rows) ;;
  Ok (mk_TimeSeriesData (fst g) (COUNT rows) p n g').

(** [ORDER BY 1] *)
Definition ORDER_BY_1 (rows : list TimeSeriesData) : list TimeSeriesData :=
  sort_by (fun a b => key_ltb (time_period a) (time_period b)) rows.

(** [SELECT date_trunc(field, t.created_at), COUNT( * ), ... GROUP BY 1 ORDER BY 1]
    over the rows that [FROM]/[WHERE] deliver: the bucketing of a collection
    of items by period. *)
Definition bucket_by_period (tz : time_zone) (field : period_type)
           (items : list joined_row)
  : result (list TimeSeriesData) :=
  rows <- mapM select_bucket (GROUP_BY (period_start tz field) items) ;;
  Ok (ORDER_BY_1 rows).

Definition period_analysis (tz : time_zone) (field : period_type) (u : string)
           (d : database)
  : result (list TimeSeriesData) :=
  bucket_by_period tz field (WHERE_username u (JOIN d)).

(** "Weekly Analysis", run in a session whose time zone is [tz] *)
Definition weekly_analysis (tz : time_zone) (d : database)
  : result (list TimeSeriesData) :=
  period_analysis tz week "getgrass_io" d.

(** "Monthly Analysis": the same query with [date_trunc('month', ...)] and
    without the [total_tweets] column. *)
Record MonthlyData : Type := mk_MonthlyData {
  month_start : key;
  m_positive_ratio : Numeric.numeric;
  m_neutral_ratio : Numeric.numeric;
  m_negative_ratio : Numeric.numeric
}.

Definition monthly_analysis (tz : time_zone) (d : database)
  : result (list MonthlyData) :=
  rows <- period_analysis tz month "getgrass_io" d ;;
  Ok (map (fun b => mk_MonthlyData (time_period b) (positive_ratio b)
                      (neutral_ratio b) (negative_ratio b)) rows).

(** The row that the select list yields for a group with at least one row
    (the divisions then go through). *)
Definition bucket_of (g : key * list joined_row) : TimeSeriesData :=
  let rows := snd g in
  let ratio lbl :=
    Numeric.div_var (SUM (CASE_sentiment lbl) rows) (COUNT rows)
      (Numeric.select_div_scale (SUM (CASE_sentiment lbl) rows) (COUNT rows)) in
  mk_TimeSeriesData (fst g) (COUNT rows)
    (ratio "positive"%string) (ratio "neutral"%string) (ratio "negative"%string).

(** Strictly ascending period starts (NULL, if present, last). *)
Definition period_lt (a b : TimeSeriesData) : Prop :=
  key_ltb (time_period a) (time_period b) = true.

(** A session of the engine: its [TimeZone] setting. *)
Record session : Type := mk_session {
  TimeZone : time_zone
}.

(** A query is read-only: executing it in a session returns the rows it
    yields under the session's settings, and leaves the session and the
    database as they were. *)
Definition execute {A : Type} (q : time_zone -> database -> result A)
           (s : session) (d : database)
  : session * database * result A :=
  (s, d, q (TimeZone s) d).

(** Sum of the three ratios of a bucket, as a rational. *)
Definition ratio_sum (b : TimeSeriesData) : Q :=
  (Numeric.value (positive_ratio b) + Numeric.value (neutral_ratio b)
   + Numeric.value (negative_ratio b))%Q.

(** The tolerance named by the specification, [1e-9]. *)
Definition tolerance : Q := 1 # 1000000000.

Definition valid_label (s : option string) : bool :=
  eq_text s "positive" || eq_text s "neutral" || eq_text s "negative".

(** ** Sample data *)

Definition sample_analysis (i : Z) (u : string) : analyses.row :=
  analyses.mk_row i u None None None None None.

(** A post of analysis [a], written at noon of day [d], labelled [s]. *)
Definition sample_tweet (i a d : Z) (s : string) : tweets.row :=
  tweets.mk_row i (Some a) (Some "post"%string) (Some "getgrass_io"%string)
    (Some "gm"%string)
    (Some (d * Timestamp.USECS_PER_DAY + 43200000000)) (Some s) (Some (9 # 10)).

(** Two ISO weeks of March 2025 (Monday 10th = day 9200, Monday 17th = day
    9207): six positive, two neutral and two negative items in the first,
    one of each in the second; a second account's row is kept apart by the
    [WHERE] clause. *)
Definition two_weeks_db : database :=
  mk_database
    [sample_analysis 1 "getgrass_io"; sample_analysis 2 "someone_else"]
    [sample_tweet 101 1 9208 "negative"; sample_tweet 102 1 9200 "positive";
     sample_tweet 103 1 9201 "positive"; sample_tweet 104 1 9202 "neutral";
     sample_tweet 105 1 9203 "positive"; sample_tweet 106 1 9204 "negative";
     sample_tweet 107 1 9205 "positive"; sample_tweet 108 1 9206 "positive";
     sample_tweet 109 1 9200 "neutral"; sample_tweet 110 1 9201 "negative";
     sample_tweet 111 1 9206 "positive"; sample_tweet 112 1 9207 "positive";
     sample_tweet 113 1 9213 "neutral"; sample_tweet 201 2 9207 "negative"].

(** The same tables with their rows stored in another order. *)
Definition two_weeks_db_reordered : database :=
  mk_database (rev (tbl_analyses two_weeks_db)) (rev (tbl_tweets two_weeks_db)).

(** The row of the second week of [two_weeks_db]. *)
Definition second_week_bucket : TimeSeriesData :=
  mk_TimeSeriesData (Some (9207 * Timestamp.USECS_PER_DAY)) 3
    (Numeric.mk_numeric 33333333333333333333 20)
    (Numeric.mk_numeric 33333333333333333333 20)
    (Numeric.mk_numeric 33333333333333333333 20).

(** ** Front-end types ([types.ts]) *)

(** [interface Tweet].  [created_at] travels as an ISO-8601 string and
    [score] as a JSON number; they are kept here as the instant and the
    rational they denote. *)
Module Tweet.

Record t : Type := mk {
  id : string;
  type : string;
  text : string;
  username : string;
  created_at : timestamptz;
  sentiment : string;
  score : Q
}.

End Tweet.

(** [SentimentReport.summary] *)
Record Summary : Type := mk_Summary {
  positive : Z;
  neutral : Z;
  negative : Z
}.

(** [interface SentimentReport]: the summary and the three top lists.  The
    fields [tweets] and [graph_data] of the interface are opaque to the
    report builder's contract and are left out. *)
Record SentimentReport : Type := mk_SentimentReport {
  summary : Summary;
  top_positive : list Tweet.t;
  top_neutral : list Tweet.t;
  top_negative : list Tweet.t
}.

(** ** The report builder *)

(** Modelled from the spec: the ranking used by [buildReport], whose code
    (Python back end behind [/api/reports]) is not among the sources.
    "Sort descending by score; on equal score, prefer the item with the
    later createdAt": [a] must precede [b] when its score is higher, or
    equal with a later [created_at]. *)
Definition ranks_before (a b : Tweet.t) : bool :=
  match (Tweet.score a ?= Tweet.score b)%Q with
  | Gt => true
  | Eq => Tweet.created_at b <? Tweet.created_at a
  | Lt => false
  end.

(** Modelled from the spec: step 2 of [buildReport], "partition items by
    label": the items of one label, in input order. *)
Definition with_label (lbl : string) (items : list Tweet.t) : list Tweet.t :=
  filter (fun x => String.eqb (Tweet.sentiment x) lbl) items.

(** Modelled from the spec: steps 3 and 4 of [buildReport]: sort the group
    (stable sort, so that full ties keep their input order) and take the
    first [topN], fewer if the group is smaller. *)
Definition top_list (topN : nat) (lbl : string) (items : list Tweet.t) : list Tweet.t :=
  firstn topN (sort_by ranks_before (with_label lbl items)).

(** Modelled from the spec: [buildReport(items, topN)], absent from the
    sources: raw counts per label, and the three top lists. *)
Definition buildReport (items : list Tweet.t) (topN : nat) : SentimentReport :=
  mk_SentimentReport
    (mk_Summary (COUNT (with_label "positive" items))
                (COUNT (with_label "neutral" items))
                (COUNT (with_label "negative" items)))
    (top_list topN "positive" items)
    (top_list topN "neutral" items)
    (top_list topN "negative" items).

(** [a] is ranked at least as high as [b]: higher score, or the same score
    and a [created_at] that is not earlier. *)
Definition ranked_ge (a b : Tweet.t) : Prop :=
  (Tweet.score b < Tweet.score a)%Q
  \/ ((Tweet.score a == Tweet.score b)%Q
      /\ Tweet.created_at b <= Tweet.created_at a).

(** The items that tie with score [s] and instant [c]. *)
Definition ties_with (s : Q) (c : timestamptz) (x : Tweet.t) : bool :=
  Qeq_bool (Tweet.score x) s && (Tweet.created_at x =? c).

(** What the specification asks of the top list [top] of label [lbl]:
    - it is ordered by descending score, later [created_at] first among
      equal scores;
    - of two items of that label with equal score and different
      [created_at], the later one stands before the earlier one whenever
      the earlier one made it into the list;
    - items that tie on both keep their input order: the tied items of the
      list are an initial segment of the tied items of the input. *)
Definition tie_broken_ranking (items : list Tweet.t) (lbl : string) (top : list Tweet.t)
  : Prop :=
  StronglySorted ranked_ge top
  /\ (forall a b,
         In a (with_label lbl items) -> In b (with_label lbl items) ->
         (Tweet.score a == Tweet.score b)%Q ->
         Tweet.created_at b < Tweet.created_at a ->
         In b top ->
         exists l1 l2 l3, top = l1 ++ a :: l2 ++ b :: l3)
  /\ (forall s c, exists rest,
         filter (ties_with s c) (with_label lbl items)
         = filter (ties_with s c) top ++ rest).

(** What the specification asks of the length of a top list: at most
    [topN] items, all of them input items of the label, and the whole group
    when the group is smaller than [topN]. *)
Definition never_padded (items : list Tweet.t) (topN : nat) (lbl : string)
           (top : list Tweet.t) : Prop :=
  (List.length top <= topN)%nat
  /\ ((List.length (with_label lbl items) < topN)%nat ->
      List.length top = List.length (with_label lbl items))
  /\ Forall (fun x => In x items /\ Tweet.sentiment x = lbl) top.

(** The first scenario of the specification. *)
Definition day1_positive : Tweet.t :=
  Tweet.mk "1" "post" "a" "u" (9200 * Timestamp.USECS_PER_DAY) "positive" (9 # 10).

Definition day2_positive : Tweet.t :=
  Tweet.mk "2" "post" "b" "u" (9201 * Timestamp.USECS_PER_DAY) "positive" (9 # 10).

Definition day1_negative : Tweet.t :=
  Tweet.mk "3" "reply" "c" "u" (9200 * Timestamp.USECS_PER_DAY) "negative" (7 # 10).

(** ** The API client ([services/api.ts]) *)
Module Api.

#[warnings="-register-all"]
Inductive json_value : Type :=
| JNull
| JBool (b : bool)
| JNumber (n : Z)
| JString (s : string)
| JArray (elements : list json_value)
| JObject (members : list (string * json_value)).

Inductive js_error : Type :=
| Error (message : string)
| TypeError (message : string)
| SyntaxError (message : string).

(** What awaiting a promise yields: its value, or the reason of its
    rejection, which [await] throws. *)
Inductive settled (A : Type) : Type :=
| Fulfilled (v : A)
| Rejected (reason : js_error).

Arguments Fulfilled {A} v.
Arguments Rejected {A} reason.

Definition and_then {A B : Type} (p : settled A) (k : A -> settled B) : settled B :=
  match p with
  | Fulfilled v => k v
  | Rejected e => Rejected e
  end.

Notation "'await' x <- p ;; k" := (and_then p (fun x => k))
  (at level 61, x name, p at next level, right associativity).

Definition throw {A : Type} (e : js_error) : settled A := Rejected e.

(** A [Response]: its status, and what its [json()] method settles to (the
    parsed body, or the [SyntaxError] of a body that is not JSON). *)
Record Response : Type := mk_Response {
  status : Z;
  json : settled json_value
}.

(** [response.ok]: the status is in the range 200-299. *)
Definition ok (response : Response) : bool :=
  (200 <=? status response) && (status response <=? 299).

(** The second argument of [fetch]; [body] holds the value handed to
    [JSON.stringify]. *)
Record RequestInit : Type := mk_RequestInit {
  method : string;
  headers : list (string * string);
  body : json_value
}.

(** The environment's [fetch]: it rejects (with a [TypeError]) when no
    response is obtained. *)
Definition fetch_type : Type := string -> option RequestInit -> settled Response.

Definition API_BASE_URL : string := "http://127.0.0.1:8000/api".

Definition getUserTweets (fetch : fetch_type) (username : string) : settled json_value :=
  await response <-
    fetch (API_BASE_URL ++ "/user-tweets")%string
      (Some (mk_RequestInit "POST" [("Content-Type", "application/json")]%string
               (JObject [("username"%string, JString username)]))) ;;
  if negb (ok response) then throw (Error "Failed to fetch user tweets")
  else json response.

Definition getWeeklyAnalysis (fetch : fetch_type) (username : string) : settled json_value :=
  await response <-
    fetch (API_BASE_URL ++ "/user-tweets/weekly_or_monthly_analysis/" ++ username)%string
      None ;;
  if negb (ok response) then throw (Error "Failed to fetch weekly analysis")
  else json response.

Definition getSentimentReports (fetch : fetch_type) (username : string) : settled json_value :=
  await response <- fetch (API_BASE_URL ++ "/reports/" ++ username)%string None ;;
  if negb (ok response) then throw (Error "Failed to fetch sentiment reports")
  else json response.

Definition analyzeTweets (fetch : fetch_type) (username : string) : settled json_value :=
  await response <-
    fetch (API_BASE_URL ++ "/analyze")%string
      (Some (mk_RequestInit "POST" [("Content-Type", "application/json")]%string
               (JObject [("query"%string, JString username);
                         ("max_tweets"%string, JNumber 15)]))) ;;
  if negb (ok response) then throw (Error "Failed to analyze tweets")
  else json response.

(** What each client function does with the one request it makes:
    - a rejection of [fetch] is passed on;
    - a response that is not ok makes it throw [Error message];
    - on an ok response it returns what [response.json()] settles to, the
      parsed body or the parse failure;
    - so, when the body parses, it throws exactly when the response is not
      ok. *)
Definition client_contract
           (f : fetch_type -> string -> settled json_value) (message : string) : Prop :=
  forall username, exists url init, forall fetch : fetch_type,
    match fetch url init with
    | Rejected e => f fetch username = Rejected e
    | Fulfilled response =>
        (ok response = false -> f fetch username = Rejected (Error message))
        /\ (ok response = true -> f fetch username = json response)
        /\ (forall v, json response = Fulfilled v ->
                      ((exists e, f fetch username = Rejected e)
                       <-> ok response = false))
    end.

(** A server that answers 200 with a page that is not JSON. *)
Definition html_response : Response :=
  mk_Response 200 (Rejected (SyntaxError "Unexpected token '<'")).

Definition html_fetch : fetch_type := fun _ _ => Fulfilled html_response.

End Api.

(** ** Further definitions: the store *)

(** [analysis_id SERIAL PRIMARY KEY]: no two stored analyses share an
    [analysis_id]. *)
Definition analyses_pkey (d : database) : Prop :=
  NoDup (map analyses.analysis_id (tbl_analyses d)).

(** The items the queries read for user [u]. *)
Definition selected (u : string) (d : database) : list joined_row :=
  WHERE_username u (JOIN d).

(** Number of selected items of user [u] whose period starts at [k]. *)
Definition bucket_size (tz : time_zone) (field : period_type) (u : string)
           (d : database) (k : key) : Z :=
  COUNT (filter (fun r => key_eqb (period_start tz field r) k) (selected u d)).

(** The exact quotient that a ratio approximates. *)
Definition exact_ratio (lbl : string) (rows : list joined_row) : Q :=
  SUM (CASE_sentiment lbl) rows # Z.to_pos (COUNT rows).

(** The rows of a bucket: the items whose period starts at [k]. *)
Definition rows_of (tz : time_zone) (field : period_type) (items : list joined_row)
           (k : key)
  : list joined_row :=
  filter (fun r => key_eqb (period_start tz field r) k) items.

(** A session zone five and a half hours east of UTC. *)
Definition plus_0530 : time_zone := Timestamp.fixed_zone 19800000000.

(** A post written on Sunday 2025-03-16 at 20:00 UTC, which is Monday
    2025-03-17 01:30 at +05:30. *)
Definition sunday_evening_db : database :=
  mk_database [sample_analysis 1 "getgrass_io"]
    [tweets.mk_row 301 (Some 1) (Some "post"%string) (Some "getgrass_io"%string)
       (Some "gn"%string)
       (Some (9206 * Timestamp.USECS_PER_DAY + 72000000000))
       (Some "positive"%string) (Some (9 # 10))].

(** A store with one analysed account and two of its tweets. *)
Definition own_db : database :=
  mk_database [sample_analysis 1 "getgrass_io"]
    [sample_tweet 101 1 9208 "negative"; sample_tweet 102 1 9200 "positive"].

Definition foreign_analysis : analyses.row := sample_analysis 2 "someone_else".

Definition foreign_tweet : tweets.row := sample_tweet 201 2 9207 "negative".

Definition new_tweet : tweets.row := sample_tweet 103 1 9201 "positive".

(** Strictly ascending month starts (NULL, if present, last). *)
Definition month_lt (a b : MonthlyData) : Prop :=
  key_ltb (month_start a) (month_start b) = true.

(** ** The search bar ([components/SearchBar.tsx]) *)
Module SearchBar.

(** A JavaScript string: its UTF-16 code units. *)
Definition jsstring : Type := list Z.

(** The code units that [String.prototype.trim] strips: ECMAScript's
    WhiteSpace (TAB, VT, FF, SP, NBSP, ZWNBSP and the space separators) and
    LineTerminator (LF, CR, LS, PS). *)
Definition is_whitespace (c : Z) : bool :=
  ((9 <=? c) && (c <=? 13))
  || (c =? 32) || (c =? 160) || (c =? 5760)
  || ((8192 <=? c) && (c <=? 8202))
  || (c =? 8232) || (c =? 8233) || (c =? 8239) || (c =? 8287)
  || (c =? 12288) || (c =? 65279).

Fixpoint trimStart (s : jsstring) : jsstring :=
  match s with
  | [] => []
  | c :: t => if is_whitespace c then trimStart t else s
  end.

Definition trimEnd (s : jsstring) : jsstring := rev (trimStart (rev s)).

Definition trim (s : jsstring) : jsstring := trimEnd (trimStart s).

(** A string is truthy when it is not empty. *)
Definition truthy (s : jsstring) : bool :=
  match s with
  | [] => false
  | _ :: _ => true
  end.

(** What submitting the form does: [e.preventDefault()] is called, and
    [onSearch] is called, or not, with the trimmed input. *)
Record submission (A : Type) : Type := mk_submission {
  defaultPrevented : bool;
  searched : option A
}.

Arguments mk_submission {A} defaultPrevented searched.
Arguments defaultPrevented {A} s.
Arguments searched {A} s.

(** [handleSubmit], for the current value [username] of the input field. *)
Definition handleSubmit {A : Type} (onSearch : jsstring -> A) (username : jsstring)
  : submission A :=
  mk_submission true
    (if truthy (trim username) then Some (onSearch (trim username)) else None).

(** [s] neither starts nor ends with white space. *)
Definition trimmed (s : jsstring) : Prop :=
  (forall c, hd_error s = Some c -> is_whitespace c = false)
  /\ (forall c, hd_error (rev s) = Some c -> is_whitespace c = false).

(** The input " getgrass_io\n". *)
Definition padded_name : jsstring :=
  [32; 103; 101; 116; 103; 114; 97; 115; 115; 95; 105; 111; 10].

End SearchBar.

(** ** The page ([app/page.tsx]) *)
Module Home.
Import Api.

(** A JavaScript value as the page meets it: [undefined], or a JSON value. *)
Definition js_value : Type := option json_value.

Definition undefined : js_value := None.

(** The value of the own property [name] of a parsed object (of a repeated
    name the last occurrence counts), [undefined] if there is none. *)
Fixpoint lookup (name : string) (members : list (string * json_value)) : js_value :=
  match members with
  | [] => undefined
  | (k, v) :: rest =>
      match lookup name rest with
      | Some v' => Some v'
      | None => if String.eqb k name then Some v else undefined
      end
  end.

(** [v.data]: a [TypeError] on [null], the member of an object, [undefined]
    on anything else. *)
Definition get_data (v : json_value) : settled js_value :=
  match v with
  | JNull => Rejected (TypeError "Cannot read properties of null (reading 'data')")
  | JObject members => Fulfilled (lookup "data" members)
  | _ => Fulfilled undefined
  end.

(** [v[0]]: a [TypeError] on [null], the first element of an array, the
    first character of a string, the member ["0"] of an object. *)
Definition get_0 (v : json_value) : settled js_value :=
  match v with
  | JNull => Rejected (TypeError "Cannot read properties of null (reading '0')")
  | JArray elements => Fulfilled (hd_error elements)
  | JString s =>
      Fulfilled (match s with
                 | EmptyString => undefined
                 | String c _ => Some (JString (String c EmptyString))
                 end)
  | JObject members => Fulfilled (lookup "0" members)
  | _ => Fulfilled undefined
  end.

(** [Boolean(v)] *)
Definition truthy (v : js_value) : bool :=
  match v with
  | None => false
  | Some JNull => false
  | Some (JBool b) => b
  | Some (JNumber n) => negb (n =? 0)
  | Some (JString s) => negb (String.eqb s "")
  | Some (JArray _) => true
  | Some (JObject _) => true
  end.

(** [err instanceof Error] and [err.message] *)
Definition instanceof_Error (err : js_error) : bool :=
  match err with
  | Error _ | TypeError _ | SyntaxError _ => true
  end.

Definition message (err : js_error) : string :=
  match err with
  | Error m | TypeError m | SyntaxError m => m
  end.

(** The four [useState] cells of [Home]. *)
Record state : Type := mk_state {
  timeSeriesData : js_value;
  sentimentReport : js_value;
  loading : bool;
  error : option string
}.

(** [useState([])], [useState(null)], [useState(false)], [useState(null)] *)
Definition initial : state :=
  mk_state (Some (JArray [])) (Some JNull) false None.

(** A computation that updates the cells and may throw. *)
Definition action (A : Type) : Type := state -> state * settled A.

Definition pure {A : Type} (a : A) : action A := fun s => (s, Fulfilled a).

Definition then_do {A B : Type} (m : action A) (k : A -> action B) : action B :=
  fun s =>
    match m s with
    | (s', Fulfilled a) => k a s'
    | (s', Rejected e) => (s', Rejected e)
    end.

Notation "'let!' x ':=' m 'in' k" := (then_do m (fun x => k))
  (at level 10, x name, m at level 100, k at level 200).

Notation "m '>>' k" := (then_do m (fun _ => k))
  (at level 62, right associativity).

(** [await p] *)
Definition awaiting {A : Type} (p : settled A) : action A := fun s => (s, p).

Definition setTimeSeriesData (v : js_value) : action unit :=
  fun s => (mk_state v (sentimentReport s) (loading s) (error s), Fulfilled tt).

Definition setSentimentReport (v : js_value) : action unit :=
  fun s => (mk_state (timeSeriesData s) v (loading s) (error s), Fulfilled tt).

Definition setLoading (b : bool) : action unit :=
  fun s => (mk_state (timeSeriesData s) (sentimentReport s) b (error s), Fulfilled tt).

Definition setError (e : option string) : action unit :=
  fun s => (mk_state (timeSeriesData s) (sentimentReport s) (loading s) e, Fulfilled tt).

(** [try { body } catch (err) { handler } finally { final }] *)
Definition try_catch_finally
           (body : action unit) (handler : js_error -> action unit) (final : action unit)
  : action unit :=
  fun s =>
    let (s1, caught) :=
      match body s with
      | (s', Fulfilled _) => (s', Fulfilled tt)
      | (s', Rejected err) => handler err s'
      end in
    match final s1 with
    | (s2, Fulfilled _) => (s2, caught)
    | (s2, Rejected err) => (s2, Rejected err)
    end.

Definition handleSearch (fetch : fetch_type) (username : string) : action unit :=
  setLoading true >>
  setError None >>
  try_catch_finally
    (awaiting (getUserTweets fetch username) >>
     let! timeSeriesJson := awaiting (getWeeklyAnalysis fetch username) in
     let! data := awaiting (get_data timeSeriesJson) in
     setTimeSeriesData data >>
     let! reportJson := awaiting (getSentimentReports fetch username) in
     let! first := awaiting (get_0 reportJson) in
     setSentimentReport first)
    (fun err =>
       setError (Some (if instanceof_Error err then message err
                       else "An error occurred"%string)))
    (setLoading false).

(** What [Home] puts on the page: the spinner, the error banner with its
    text, the chart with its data, and the summary with its report (inside
    the chart's block). *)
Record screen : Type := mk_screen {
  spinner : bool;
  banner : option string;
  graph : option js_value;
  summary : option js_value
}.

(** [error && ...]: a string is truthy when it is not empty. *)
Definition error_truthy (e : option string) : bool :=
  match e with
  | None => false
  | Some m => negb (String.eqb m "")
  end.

(** [v.name] for a value [v] that is neither [null] nor [undefined], and a
    name that no prototype defines: the member of an object, [undefined] on
    anything else. *)
Definition member (name : string) (v : json_value) : js_value :=
  match v with
  | JObject members => lookup name members
  | _ => undefined
  end.

(** What React accepts as a child: text, numbers, nothing ([null],
    [undefined], booleans) and arrays of such; a plain object is refused. *)
Fixpoint renderable (v : json_value) : bool :=
  match v with
  | JObject _ => false
  | JArray elements => forallb renderable elements
  | _ => true
  end.

Definition child_ok (v : js_value) : bool :=
  match v with
  | None => true
  | Some v' => renderable v'
  end.

(** [array.map(callback)] with a callback that may throw: the first throw
    ends the iteration. *)
Fixpoint map_settled {A B : Type} (callback : A -> settled B) (array : list A)
  : settled (list B) :=
  match array with
  | [] => Fulfilled []
  | x :: rest =>
      await y <- callback x ;;
      await ys <- map_settled callback rest ;;
      Fulfilled (y :: ys)
  end.

(** ** The summary ([components/SentimentSummary.tsx]) *)

(** One card of the summary: its key, the two children taken from the
    tweet, and the number whose [toFixed(2)] it shows. *)
Record card : Type := mk_card {
  card_key : js_value;
  card_text : js_value;
  card_username : js_value;
  card_score : Z
}.

(** The callback [(tweet) => ...]: it reads [tweet.id], [tweet.text],
    [tweet.username] and calls [tweet.score.toFixed(2)], which only a
    number has. *)
Definition render_card (tweet : json_value) : settled card :=
  match tweet with
  | JNull => Rejected (TypeError "Cannot read properties of null (reading 'id')")
  | _ =>
      match member "score" tweet with
      | Some (JNumber n) =>
          Fulfilled (mk_card (member "id" tweet) (member "text" tweet)
                       (member "username" tweet) n)
      | None =>
          Rejected (TypeError "Cannot read properties of undefined (reading 'toFixed')")
      | Some JNull =>
          Rejected (TypeError "Cannot read properties of null (reading 'toFixed')")
      | Some _ => Rejected (TypeError "tweet.score.toFixed is not a function")
      end
  end.

(** [tweets.map((tweet) => ...)] for the property [tweets] named [name]:
    only an array has [map]. *)
Definition map_cards (name : string) (tweets : js_value) : settled (list card) :=
  match tweets with
  | None => Rejected (TypeError "Cannot read properties of undefined (reading 'map')")
  | Some JNull => Rejected (TypeError "Cannot read properties of null (reading 'map')")
  | Some (JArray elements) => map_settled render_card elements
  | Some _ => Rejected (TypeError (name ++ ".map is not a function"))
  end.

Definition card_renderable (c : card) : bool :=
  child_ok (card_text c) && child_ok (card_username c).

(** [SentimentSummary]: the cards of the positive list, then those of the
    negative list ([topNeutral] is received and not used); React then
    refuses a card with an object among its children (its message is cut
    here before the description of the object). *)
Definition SentimentSummary (topPositive topNegative topNeutral : js_value)
  : settled (list card * list card) :=
  await positives <- map_cards "topPositive" topPositive ;;
  await negatives <- map_cards "topNegative" topNegative ;;
  if forallb card_renderable (positives ++ negatives)
  then Fulfilled (positives, negatives)
  else Rejected (Error "Objects are not valid as a React child").






Section View.

(** [ToNumber(v) > 0] for a string or an array [v], which only matters when
    the data is an object with such a member ["length"]. *)
Variable coerced_positive : json_value -> bool.

(** [v > 0] *)
Definition positive_value (v : js_value) : bool :=
  match v with
  | None => false
  | Some JNull => false
  | Some (JBool b) => b
  | Some (JNumber n) => 0 <? n
  | Some (JObject _) => false
  | Some v' => coerced_positive v'
  end.

(** [v.length > 0]: reading [length] of [undefined] or [null] throws. *)
Definition has_items (v : js_value) : settled bool :=
  match v with
  | None =>
      Rejected (TypeError "Cannot read properties of undefined (reading 'length')")
  | Some JNull =>
      Rejected (TypeError "Cannot read properties of null (reading 'length')")
  | Some (JArray elements) => Fulfilled (negb (Nat.eqb (List.length elements) 0))
  | Some (JString s) => Fulfilled (negb (Nat.eqb (String.length s) 0))
  | Some (JObject members) => Fulfilled (positive_value (lookup "length" members))
  | Some _ => Fulfilled false
  end.

(** The summary block inside the chart's block: [sentimentReport && ...]
    mounts [SentimentSummary] on the three lists of a truthy report. *)
Definition summary_block (report : js_value) : settled (option js_value) :=
  match report with
  | Some r =>
      if truthy report then
        await cards <-
          SentimentSummary (member "top_positive" r) (member "top_negative" r)
            (member "top_neutral" r) ;;
        Fulfilled (Some report)
      else Fulfilled None
  | None => Fulfilled None
  end.

(** The three conditional blocks of the page, in the order in which they
    are evaluated; [&&] does not evaluate its right side after a falsy left
    side.  A throw while the page or its summary renders makes the render
    fail.  What the chart library does with the data it is handed is not
    part of this. *)
Definition view (s : state) : settled screen :=
  let banner := if error_truthy (error s) then error s else None in
  if negb (loading s) && negb (error_truthy (error s)) then
    await shown <- has_items (timeSeriesData s) ;;
    if shown then
      await summary <- summary_block (sentimentReport s) ;;
      Fulfilled (mk_screen (loading s) banner (Some (timeSeriesData s)) summary)
    else Fulfilled (mk_screen (loading s) banner None None)
  else Fulfilled (mk_screen (loading s) banner None None).

End View.

(** A back end that answers every request with [200] and an empty
    [{"data": []}] body, and one that cannot be reached. *)
Definition quiet_fetch : fetch_type :=
  fun _ _ => Fulfilled (mk_Response 200 (Fulfilled (JObject [("data"%string, JArray [])]))).

Definition offline_fetch : fetch_type :=
  fun _ _ => Rejected (TypeError "Failed to fetch").

(** A back end with one week of data and one report for the account. *)
Definition one_week : json_value :=
  JArray [JObject [("time_period"%string, JString "2025-03-10");
                   ("total_tweets"%string, JNumber 3)]].



(** A back end that answers every request with [200] and the body [[]]. *)
Definition bare_fetch : fetch_type :=
  fun _ _ => Fulfilled (mk_Response 200 (Fulfilled (JArray []))).

End Home.

(** ** The ingestion boundary *)

(** Modelled from the spec: the error of section 7, raised when "an input
    item has a label outside {positive, neutral, negative} or a score
    outside its declared domain"; the code that constructs items from the
    Item Store (Python back end) is not among the sources.  The error
    carries the id of the offending item. *)
Inductive ingestion_error : Type :=
| ValidationError (tweet_id : Z).

(** Modelled from the spec: what the boundary returns, the items it
    accepted or the error with which it refused the batch. *)
Inductive ingestion (A : Type) : Type :=
| Accepted (a : A)
| Refused (e : ingestion_error).

Arguments Accepted {A} a.
Arguments Refused {A} e.

(** Modelled from the spec: the declared domain of a confidence score,
    "floating-point confidence in [0, 1]" (section 3). *)
Definition unit_interval (q : Q) : bool := Qle_bool 0 q && Qle_bool q 1.

(** Modelled from the spec: an item is well formed when its label is one
    of the three and its score is present and lies in the declared
    [domain]. *)
Definition valid_item (domain : Q -> bool) (r : joined_row) : bool :=
  valid_label (tweets.sentiment (snd r))
  && match tweets.sentiment_score (snd r) with
     | Some q => domain q
     | None => false
     end.

(** Modelled from the spec: item construction at the boundary ("when
    reading from the Item Store", section 4): the batch is handed on when
    every item is well formed, and refused with a [ValidationError] on the
    first item that is not. *)
Fixpoint ingest (domain : Q -> bool) (rows : list joined_row)
  : ingestion (list joined_row) :=
  match rows with
  | [] => Accepted []
  | r :: t =>
      if valid_item domain r then
        match ingest domain t with
        | Accepted items => Accepted (r :: items)
        | Refused e => Refused e
        end
      else Refused (ValidationError (tweets.tweet_id (snd r)))
  end.

(** Modelled from the spec: where a failure of the pipeline comes from, the
    boundary or the aggregation. *)
Inductive failure : Type :=
| AtIngestion (e : ingestion_error)
| InAggregation (e : sql_error).

(** Modelled from the spec: the result of the pipeline. *)
Inductive outcome (A : Type) : Type :=
| Done (a : A)
| Failed (f : failure).

Arguments Done {A} a.
Arguments Failed {A} f.

(** Modelled from the spec: the data flow of section 2, "Item Store ->
    Aggregation Engine (reads back a batch)": the batch goes through the
    boundary, and what the boundary accepts is aggregated (by the grouping
    query of the sources). *)
Definition ingest_and_bucket (domain : Q -> bool) (tz : time_zone)
           (field : period_type) (rows : list joined_row)
  : outcome (list TimeSeriesData) :=
  match ingest domain rows with
  | Refused e => Failed (AtIngestion e)
  | Accepted items =>
      match bucket_by_period tz field items with
      | Ok buckets => Done buckets
      | Err e => Failed (InAggregation e)
      end
  end.

(** A row labelled "mixed" with score 3.5, joined with its analysis. *)
Definition mixed_item : joined_row :=
  (sample_analysis 1 "getgrass_io",
   tweets.mk_row 7 (Some 1) (Some "reply"%string) (Some "getgrass_io"%string)
     (Some "hmm"%string) (Some (9205 * Timestamp.USECS_PER_DAY))
     (Some "mixed"%string) (Some (7 # 2))).
(** * Properties *)

(** ** Calendar truncation on sample dates *)

Example trunc_week_2025_03_15 :
  date_trunc Timestamp.UTC week (9205 * Timestamp.USECS_PER_DAY + 4711)
  = 9200 * Timestamp.USECS_PER_DAY.
Proof. reflexivity. Qed.

Example trunc_month_2024_02_29 :
  date_trunc Timestamp.UTC month (8825 * Timestamp.USECS_PER_DAY + 86399999999)
  = 8797 * Timestamp.USECS_PER_DAY.
Proof. reflexivity. Qed.

Example trunc_week_1999_12_31 :
  date_trunc Timestamp.UTC week (-1) = -5 * Timestamp.USECS_PER_DAY.
Proof. reflexivity. Qed.

Example trunc_month_1999_12_31 :
  date_trunc Timestamp.UTC month (-1) = -31 * Timestamp.USECS_PER_DAY.
Proof. reflexivity. Qed.

Example trunc_day_2025_03_17 :
  date_trunc Timestamp.UTC day (9207 * Timestamp.USECS_PER_DAY + 1)
  = 9207 * Timestamp.USECS_PER_DAY.
Proof. reflexivity. Qed.

Lemma day_of_month_range (d : Z) : 1 <= Timestamp.day_of_month d <= 31.
Proof.
  unfold Timestamp.day_of_month.
  Z.to_euclidean_division_equations. lia.
Qed.

(** In a zone at +05:30, Sunday 2025-03-16 20:00 UTC is already Monday:
    its week starts on Sunday the 16th at 18:30 UTC, not on Monday the 10th
    at 00:00 UTC. *)
Example trunc_week_plus_0530 :
  date_trunc (Timestamp.fixed_zone 19800000000) week
    (9206 * Timestamp.USECS_PER_DAY + 72000000000)
  = 9207 * Timestamp.USECS_PER_DAY - 19800000000
  /\ date_trunc Timestamp.UTC week (9206 * Timestamp.USECS_PER_DAY + 72000000000)
     = 9200 * Timestamp.USECS_PER_DAY.
Proof. split; reflexivity. Qed.

(** A wall-clock period starts no later than any time it contains. *)
Lemma truncate_le (field : period_type) (t : Z) :
  Timestamp.truncate field t <= t.
Proof.
  pose proof (day_of_month_range (Timestamp.date_of t)).
  unfold Timestamp.truncate, Timestamp.day_of_week, Timestamp.date_of,
    Timestamp.USECS_PER_DAY in *.
  destruct field; Z.to_euclidean_division_equations; lia.
Qed.

(** A day is at most a day long, a week at most seven. *)
Lemma truncate_day_week_span (t : Z) :
  t < Timestamp.truncate day t + Timestamp.USECS_PER_DAY
  /\ t < Timestamp.truncate week t + 7 * Timestamp.USECS_PER_DAY.
Proof.
  unfold Timestamp.truncate, Timestamp.day_of_week, Timestamp.date_of,
    Timestamp.USECS_PER_DAY.
  split; Z.to_euclidean_division_equations; lia.
Qed.

Lemma truncate_day_week_idem (t : Z) :
  Timestamp.truncate day (Timestamp.truncate day t) = Timestamp.truncate day t
  /\ Timestamp.truncate week (Timestamp.truncate week t) = Timestamp.truncate week t.
Proof.
  unfold Timestamp.truncate, Timestamp.day_of_week, Timestamp.date_of,
    Timestamp.USECS_PER_DAY.
  split.
  - rewrite Z.div_mul by lia. reflexivity.
  - rewrite Z.div_mul by lia. Z.to_euclidean_division_equations; lia.
Qed.

(** ** [numeric] division: scale and rounding error *)

Module NumericFacts.
Import Numeric.

Lemma weight_fuel_nonneg (fuel : nat) (n : Z) : 0 <= weight_fuel fuel n.
Proof.
  revert n; induction fuel as [|f IH]; intros n; cbn [weight_fuel]; [lia|].
  destruct (n <? NBASE); [lia|]. specialize (IH (n / NBASE)). lia.
Qed.

(** With enough fuel, [weight_fuel] brackets [n] between two consecutive
    powers of the base. *)
Lemma weight_fuel_spec (fuel : nat) :
  forall n, 0 < n -> n < 2 ^ Z.of_nat fuel ->
            NBASE ^ weight_fuel fuel n <= n < NBASE ^ (weight_fuel fuel n + 1).
Proof.
  induction fuel as [|f IH]; intros n Hpos Hlt.
  - simpl in Hlt. lia.
  - cbn [weight_fuel]. destruct (Z.ltb_spec n NBASE) as [Hs|Hb].
    + unfold NBASE in *. simpl. lia.
    + assert (Hq : 0 < n / NBASE)
        by (apply Z.div_str_pos; unfold NBASE in *; lia).
      assert (Hq2 : n / NBASE < 2 ^ Z.of_nat f).
      { apply Z.div_lt_upper_bound; [unfold NBASE; lia|].
        rewrite Nat2Z.inj_succ, Z.pow_succ_r in Hlt by lia.
        assert (0 < 2 ^ Z.of_nat f) by (apply Z.pow_pos_nonneg; lia).
        unfold NBASE. lia. }
      specialize (IH _ Hq Hq2).
      pose proof (weight_fuel_nonneg f (n / NBASE)) as Hw.
      set (w := weight_fuel f (n / NBASE)) in *.
      replace (1 + w) with (Z.succ w) by lia.
      replace (Z.succ w + 1) with (Z.succ (w + 1)) by lia.
      rewrite !Z.pow_succ_r by lia.
      pose proof (Z.div_mod n NBASE ltac:(unfold NBASE; lia)) as Hdm.
      pose proof (Z.mod_pos_bound n NBASE ltac:(unfold NBASE; lia)) as Hm.
      split; nia.
Qed.

Lemma weight_spec (n : Z) :
  0 < n -> NBASE ^ weight n <= n < NBASE ^ (weight n + 1).
Proof.
  intros Hpos. unfold weight. rewrite Z.abs_eq by lia.
  apply weight_fuel_spec; [exact Hpos|].
  rewrite Nat2Z.inj_succ, Z2Nat.id by apply Z.log2_nonneg.
  apply Z.log2_spec. exact Hpos.
Qed.

Lemma weight_nonneg (n : Z) : 0 <= weight n.
Proof. apply weight_fuel_nonneg. Qed.

Lemma weight_zero : weight 0 = 0.
Proof. reflexivity. Qed.

Lemma weight_mono (a b : Z) : 0 <= a <= b -> weight a <= weight b.
Proof.
  intros [Ha Hab].
  destruct (Z.eq_dec a 0) as [->|Hnz].
  - rewrite weight_zero. apply weight_nonneg.
  - destruct (Z.le_gt_cases (weight a) (weight b)) as [|Hgt]; [assumption|].
    exfalso.
    pose proof (weight_spec a ltac:(lia)) as [Hla _].
    pose proof (weight_spec b ltac:(lia)) as [_ Hub].
    assert (NBASE ^ (weight b + 1) <= NBASE ^ weight a)
      by (apply Z.pow_le_mono_r; [unfold NBASE; lia | lia]).
    lia.
Qed.

(** A ratio of a part to its whole keeps at least sixteen decimals. *)
Lemma select_div_scale_part (a n : Z) :
  0 <= a <= n -> 16 <= select_div_scale a n <= 1000.
Proof.
  intros H. pose proof (weight_mono a n H) as Hw.
  unfold select_div_scale, NUMERIC_MIN_SIG_DIGITS, DEC_DIGITS,
    NUMERIC_MIN_DISPLAY_SCALE, NUMERIC_MAX_DISPLAY_SCALE.
  destruct (firstdigit a <=? firstdigit n); lia.
Qed.

Lemma round_div_bounds (m d : Z) :
  0 <= m -> 0 < d ->
  2 * m - d < 2 * d * round_div m d <= 2 * m + d.
Proof.
  intros Hm Hd. unfold round_div.
  rewrite (Z.abs_eq m), (Z.abs_eq d) by lia.
  rewrite (Z.sgn_pos d) by lia.
  pose proof (Z.div_mod (2 * m + d) (2 * d) ltac:(lia)) as Hdm.
  pose proof (Z.mod_pos_bound (2 * m + d) (2 * d) ltac:(lia)) as Hb.
  destruct (Z.eq_dec m 0) as [->|Hnz].
  - simpl. lia.
  - rewrite (Z.sgn_pos m) by lia. lia.
Qed.

Lemma pow10_pos (s : Z) : 0 <= s -> 0 < 10 ^ s.
Proof. intros; apply Z.pow_pos_nonneg; lia. Qed.

(** The rounded quotient differs from the exact one by at most half a unit
    of the last kept decimal. *)
Lemma div_var_close (a n s : Z) :
  0 <= a -> 0 < n -> 16 <= s ->
  (Qabs (value (div_var a n s) - (a # Z.to_pos n)) <= 1 # 20000000000000000)%Q.
Proof.
  intros Ha Hn Hs.
  pose proof (pow10_pos s ltac:(lia)) as Hp.
  assert (H16 : 10 ^ 16 <= 10 ^ s) by (apply Z.pow_le_mono_r; lia).
  pose proof (round_div_bounds (a * 10 ^ s) n ltac:(nia) Hn) as Hr.
  apply Qabs_Qle_condition.
  unfold value, div_var; cbn [unscaled dscale].
  set (r := round_div (a * 10 ^ s) n) in *.
  unfold Qle, Qminus, Qplus, Qopp; cbn [Qnum Qden].
  rewrite !Pos2Z.inj_mul, !Z2Pos.id by lia.
  change (10 ^ 16) with 10000000000000000 in H16.
  split; nia.
Qed.

End NumericFacts.

(** ** Stable insertion sort *)

Section StableSort.

Context {A : Type} (before : A -> A -> bool).

Lemma insert_by_perm (x : A) (l : list A) :
  Permutation (insert_by before x l) (x :: l).
Proof.
  induction l as [|y t IH]; cbn [insert_by]; [reflexivity|].
  destruct (before y x); [|reflexivity].
  rewrite IH. apply perm_swap.
Qed.

Lemma sort_by_perm (l : list A) : Permutation (sort_by before l) l.
Proof.
  induction l as [|x t IH]; cbn [sort_by]; [reflexivity|].
  rewrite insert_by_perm. now constructor.
Qed.

Lemma sort_by_length (l : list A) : List.length (sort_by before l) = List.length l.
Proof. apply Permutation_length, sort_by_perm. Qed.

Lemma sort_by_In (l : list A) (x : A) : In x (sort_by before l) <-> In x l.
Proof.
  split; apply Permutation_in; [|symmetry]; apply sort_by_perm.
Qed.

(** Elements of one tie class are never reordered by an insertion. *)
Lemma insert_by_stable (c : A -> bool) (x : A) (l : list A) :
  (c x = true -> forall y, c y = true -> before y x = false) ->
  filter c (insert_by before x l) = filter c (x :: l).
Proof.
  intros Hc. induction l as [|y t IH]; cbn [insert_by]; [reflexivity|].
  destruct (before y x) eqn:Hyx; [|reflexivity].
  cbn [filter] in *. rewrite IH.
  destruct (c x) eqn:Hx; [|reflexivity].
  destruct (c y) eqn:Hy; [|reflexivity].
  rewrite (Hc eq_refl y Hy) in Hyx. discriminate.
Qed.

Lemma sort_by_stable (c : A -> bool) (l : list A) :
  (forall x y, c x = true -> c y = true -> before y x = false) ->
  filter c (sort_by before l) = filter c l.
Proof.
  intros Hc. induction l as [|x t IH]; cbn [sort_by]; [reflexivity|].
  rewrite insert_by_stable by (intros Hx y Hy; now apply Hc).
  cbn [filter]. now rewrite IH.
Qed.

Hypothesis before_asym : forall x y, before x y = true -> before y x = false.
Hypothesis may_precede_trans :
  forall x y z,
    may_precede before x y -> may_precede before y z -> may_precede before x z.

Lemma insert_by_sorted (x : A) (l : list A) :
  StronglySorted (may_precede before) l ->
  StronglySorted (may_precede before) (insert_by before x l).
Proof.
  induction 1 as [|y t Ht IH Hy]; cbn [insert_by].
  - repeat constructor.
  - destruct (before y x) eqn:Hyx.
    + constructor; [exact IH|].
      eapply Permutation_Forall; [symmetry; apply insert_by_perm|].
      constructor; [now apply before_asym | exact Hy].
    + constructor; [now constructor|].
      constructor; [exact Hyx|].
      eapply Forall_impl; [|exact Hy].
      intros z Hz. now apply (may_precede_trans x y z).
Qed.

Lemma sort_by_sorted (l : list A) : StronglySorted (may_precede before) (sort_by before l).
Proof.
  induction l as [|x t IH]; cbn [sort_by]; [constructor|].
  now apply insert_by_sorted.
Qed.

End StableSort.

(** Two lists sorted by a strict order and holding the same elements are
    the same list. *)
Lemma strictly_sorted_perm_eq {A : Type} (lt : A -> A -> Prop) :
  (forall x y, lt x y -> lt y x -> False) ->
  forall l1 l2 : list A,
    StronglySorted lt l1 -> StronglySorted lt l2 -> Permutation l1 l2 -> l1 = l2.
Proof.
  intros Hasym l1. induction l1 as [|a t1 IH]; intros l2 H1 H2 HP.
  - now apply Permutation_nil in HP.
  - destruct l2 as [|b t2].
    + symmetry in HP. now apply Permutation_nil in HP.
    + apply StronglySorted_inv in H1 as [H1 Ha].
      apply StronglySorted_inv in H2 as [H2 Hb].
      rewrite Forall_forall in Ha, Hb.
      assert (Hab : a = b).
      { assert (Hin1 : In a (b :: t2))
          by (eapply Permutation_in; [exact HP | now left]).
        assert (Hin2 : In b (a :: t1))
          by (eapply Permutation_in; [symmetry; exact HP | now left]).
        destruct Hin1 as [->|Hin1]; [reflexivity|].
        destruct Hin2 as [->|Hin2]; [reflexivity|].
        exfalso. exact (Hasym a b (Ha _ Hin2) (Hb _ Hin1)). }
      subst b. f_equal. apply IH; try assumption.
      now apply Permutation_cons_inv in HP.
Qed.

Lemma Permutation_filter {A : Type} (f : A -> bool) (l l' : list A) :
  Permutation l l' -> Permutation (filter f l) (filter f l').
Proof.
  induction 1 as [|x l l' _ IH|x y l|l l' l'' _ IH1 _ IH2]; cbn [filter].
  - constructor.
  - destruct (f x); [now constructor | exact IH].
  - destruct (f x), (f y); try reflexivity. apply perm_swap.
  - now transitivity (filter f l').
Qed.

Lemma Permutation_flat_map_pointwise {A B : Type} (g h : A -> list B) (l : list A) :
  (forall a, Permutation (g a) (h a)) ->
  Permutation (flat_map g l) (flat_map h l).
Proof.
  intros Hgh. induction l as [|a t IH]; cbn [flat_map]; [constructor|].
  now apply Permutation_app.
Qed.

(** ** The order on grouping keys *)

Lemma key_eqb_eq (a b : key) : key_eqb a b = true <-> a = b.
Proof.
  destruct a as [x|], b as [y|]; cbn; split; intros H;
    try discriminate; try reflexivity.
  - apply Z.eqb_eq in H. now subst.
  - injection H as ->. apply Z.eqb_refl.
Qed.

Lemma key_eqb_refl (a : key) : key_eqb a a = true.
Proof. now apply key_eqb_eq. Qed.

Lemma key_ltb_irrefl (a : key) : key_ltb a a = false.
Proof. destruct a; cbn; [apply Z.ltb_irrefl | reflexivity]. Qed.

Lemma key_ltb_asym (a b : key) : key_ltb a b = true -> key_ltb b a = false.
Proof.
  destruct a, b; cbn; intros H; try discriminate; try reflexivity.
  apply Z.ltb_lt in H. apply Z.ltb_ge. lia.
Qed.

Lemma key_ltb_total (a b : key) :
  key_ltb b a = false -> a <> b -> key_ltb a b = true.
Proof.
  destruct a as [x|], b as [y|]; cbn; intros H Hne;
    try discriminate; try reflexivity; try congruence.
  apply Z.ltb_ge in H. apply Z.ltb_lt.
  assert (x <> y) by congruence. lia.
Qed.

Lemma key_not_ltb_trans (a b c : key) :
  key_ltb b a = false -> key_ltb c b = false -> key_ltb c a = false.
Proof.
  destruct a, b, c; cbn; intros H1 H2; try discriminate; try reflexivity.
  apply Z.ltb_ge in H1, H2. apply Z.ltb_ge. lia.
Qed.

(** On two non-null period starts the order is the order of time. *)
Lemma key_ltb_Some (x y : timestamptz) : key_ltb (Some x) (Some y) = true <-> x < y.
Proof. cbn. apply Z.ltb_lt. Qed.

(** ** Grouping *)

Lemma distinct_In (ks : list key) (k : key) : In k (distinct ks) <-> In k ks.
Proof.
  induction ks as [|h t IH]; cbn [distinct]; [reflexivity|].
  cbn [In]. rewrite filter_In, IH. split.
  - intros [H|[H _]]; auto.
  - intros [H|H]; [now left|].
    destruct (key_eqb h k) eqn:E.
    + left. now apply key_eqb_eq.
    + right. split; [exact H | reflexivity].
Qed.

Lemma distinct_NoDup (ks : list key) : NoDup (distinct ks).
Proof.
  induction ks as [|h t IH]; cbn [distinct]; constructor.
  - rewrite filter_In. intros [_ H]. now rewrite key_eqb_refl in H.
  - now apply NoDup_filter.
Qed.

Lemma GROUP_BY_keys {R : Type} (f : R -> key) (rows : list R) :
  map fst (GROUP_BY f rows) = distinct (map f rows).
Proof.
  unfold GROUP_BY. rewrite map_map. cbn [fst]. apply map_id.
Qed.

(** A group holds exactly the rows with its key, and at least one. *)
Lemma GROUP_BY_group {R : Type} (f : R -> key) (rows : list R) (g : key * list R) :
  In g (GROUP_BY f rows) ->
  snd g = filter (fun r => key_eqb (f r) (fst g)) rows /\ snd g <> [].
Proof.
  unfold GROUP_BY. rewrite in_map_iff. intros (k & <- & Hk). cbn [fst snd].
  split; [reflexivity|].
  apply distinct_In, in_map_iff in Hk as (r & Hr & Hin).
  intros Hnil.
  assert (Hf : In r (filter (fun r0 => key_eqb (f r0) k) rows)).
  { apply filter_In. split; [exact Hin|]. now apply key_eqb_eq. }
  now rewrite Hnil in Hf.
Qed.

Lemma COUNT_pos {R : Type} (g : list R) : g <> [] -> 1 <= COUNT g.
Proof. destruct g; [congruence|]. unfold COUNT. cbn [List.length]. lia. Qed.

Lemma COUNT_nonneg {R : Type} (g : list R) : 0 <= COUNT g.
Proof. unfold COUNT. lia. Qed.

Lemma SUM_CASE_bounds (lbl : string) (g : list joined_row) :
  0 <= SUM (CASE_sentiment lbl) g <= COUNT g.
Proof.
  unfold COUNT. induction g as [|r t IH]; cbn [SUM fold_right List.length].
  - lia.
  - fold (SUM (CASE_sentiment lbl) t). unfold CASE_sentiment at 1 3.
    destruct (eq_text _ lbl); lia.
Qed.

(** ** The select list never fails on a group *)

Lemma select_bucket_ok (g : key * list joined_row) :
  snd g <> [] -> select_bucket g = Ok (bucket_of g).
Proof.
  intros Hne. pose proof (COUNT_pos _ Hne) as Hc.
  unfold select_bucket, bucket_of, Numeric.div.
  destruct (Z.eqb_spec (COUNT (snd g)) 0) as [E|_]; [lia|].
  reflexivity.
Qed.

Lemma mapM_ok {A B : Type} (f : A -> result B) (h : A -> B) (l : list A) :
  (forall a, In a l -> f a = Ok (h a)) -> mapM f l = Ok (map h l).
Proof.
  induction l as [|a t IH]; intros H; cbn [mapM map]; [reflexivity|].
  rewrite (H a) by now left. cbn [bind].
  rewrite IH by (intros; apply H; now right). reflexivity.
Qed.

(** The query as a total function: group, aggregate, sort. *)
Lemma bucket_by_period_ok (tz : time_zone) (field : period_type) (items : list joined_row) :
  bucket_by_period tz field items
  = Ok (ORDER_BY_1 (map bucket_of (GROUP_BY (period_start tz field) items))).
Proof.
  unfold bucket_by_period.
  rewrite (mapM_ok select_bucket bucket_of); [reflexivity|].
  intros g Hg. apply select_bucket_ok.
  now apply GROUP_BY_group in Hg.
Qed.

Lemma bucket_periods (tz : time_zone) (field : period_type) (items : list joined_row) :
  map time_period (map bucket_of (GROUP_BY (period_start tz field) items))
  = distinct (map (period_start tz field) items).
Proof.
  rewrite map_map. rewrite <- GROUP_BY_keys.
  apply map_ext. reflexivity.
Qed.

Lemma ORDER_BY_1_perm (rows : list TimeSeriesData) :
  Permutation (ORDER_BY_1 rows) rows.
Proof. apply sort_by_perm. Qed.

(** Sorting rows whose keys are pairwise distinct yields strictly
    ascending keys. *)
Lemma ORDER_BY_1_strict (rows : list TimeSeriesData) :
  NoDup (map time_period rows) ->
  StronglySorted period_lt (ORDER_BY_1 rows).
Proof.
  intros Hnd.
  assert (Hnd' : NoDup (map time_period (ORDER_BY_1 rows))).
  { eapply Permutation_NoDup; [|exact Hnd].
    apply Permutation_map. symmetry. apply ORDER_BY_1_perm. }
  assert (Hs : StronglySorted
                 (may_precede (fun a b => key_ltb (time_period a) (time_period b)))
                 (ORDER_BY_1 rows)).
  { apply sort_by_sorted.
    - intros x y. apply key_ltb_asym.
    - intros x y z. unfold may_precede. apply key_not_ltb_trans. }
  induction Hs as [|a t Ht IH Ha]; [constructor|].
  cbn [map] in Hnd'. inversion Hnd' as [|? ? Hnotin Hnd'']; subst.
  constructor; [now apply IH|].
  rewrite Forall_forall in *. intros b Hb.
  apply key_ltb_total; [now apply Ha|].
  intros E. apply Hnotin. rewrite E. now apply in_map.
Qed.

(** ** Properties of the bucketing queries *)

(** The worked example of the specification: two buckets, in time order,
    with ratios 0.6 / 0.2 / 0.2 and one third each. *)
Example two_weeks_weekly :
  weekly_analysis Timestamp.UTC two_weeks_db
  = Ok [ mk_TimeSeriesData (Some (9200 * Timestamp.USECS_PER_DAY)) 10
           (Numeric.mk_numeric 60000000000000000000 20)
           (Numeric.mk_numeric 20000000000000000000 20)
           (Numeric.mk_numeric 20000000000000000000 20);
         mk_TimeSeriesData (Some (9207 * Timestamp.USECS_PER_DAY)) 3
           (Numeric.mk_numeric 33333333333333333333 20)
           (Numeric.mk_numeric 33333333333333333333 20)
           (Numeric.mk_numeric 33333333333333333333 20) ].
Proof. vm_compute. reflexivity. Qed.

Example two_weeks_monthly :
  monthly_analysis Timestamp.UTC two_weeks_db
  = Ok [ mk_MonthlyData (Some (9191 * Timestamp.USECS_PER_DAY))
           (Numeric.mk_numeric 53846153846153846154 20)
           (Numeric.mk_numeric 23076923076923076923 20)
           (Numeric.mk_numeric 23076923076923076923 20) ].
Proof. vm_compute. reflexivity. Qed.

Lemma bucket_periods_NoDup (tz : time_zone) (field : period_type) (items : list joined_row) :
  NoDup (map time_period (map bucket_of (GROUP_BY (period_start tz field) items))).
Proof. rewrite bucket_periods. apply distinct_NoDup. Qed.

Lemma ordered_buckets_strict (tz : time_zone) (field : period_type) (items : list joined_row) :
  StronglySorted period_lt
    (ORDER_BY_1 (map bucket_of (GROUP_BY (period_start tz field) items))).
Proof. apply ORDER_BY_1_strict, bucket_periods_NoDup. Qed.

(** C8: the ratio computation never divides by zero.  Whatever the items,
    the query returns rows (no [division_by_zero] is raised), and every row
    stems from a group of at least one item: its [total_tweets], the divisor
    of its three ratios, is the number of items of its period and is at
    least 1. *)
Theorem no_division_by_zero (tz : time_zone) (field : period_type) (items : list joined_row) :
  exists rows,
    bucket_by_period tz field items = Ok rows
    /\ Forall
         (fun b =>
            1 <= total_tweets b
            /\ total_tweets b
               = COUNT (filter (fun r => key_eqb (period_start tz field r) (time_period b))
                          items))
         rows.
Proof.
  eexists. split; [apply bucket_by_period_ok|].
  eapply Permutation_Forall; [symmetry; apply ORDER_BY_1_perm|].
  apply Forall_forall. intros b Hb.
  apply in_map_iff in Hb as (g & <- & Hg).
  apply GROUP_BY_group in Hg as [Hrows Hne].
  unfold bucket_of; cbn [total_tweets time_period].
  split; [now apply COUNT_pos | now rewrite Hrows at 1].
Qed.

(** C2: for every collection of items and every period type the rows come
    out strictly ascending by period start (each earlier row's period start
    is before every later row's; a NULL period, if any, is last), and no two
    rows share a period start. *)
Theorem buckets_strictly_ascending (tz : time_zone) (field : period_type) (items : list joined_row) :
  exists rows,
    bucket_by_period tz field items = Ok rows
    /\ StronglySorted period_lt rows
    /\ NoDup (map time_period rows).
Proof.
  eexists. split; [apply bucket_by_period_ok|]. split.
  - apply ordered_buckets_strict.
  - eapply Permutation_NoDup; [|apply (bucket_periods_NoDup tz field items)].
    apply Permutation_map. symmetry. apply ORDER_BY_1_perm.
Qed.

(** Between two rows with non-null period starts, "before" is the order of
    time. *)
Corollary weekly_analysis_ascending (tz : time_zone) (d : database) :
  exists rows,
    weekly_analysis tz d = Ok rows
    /\ forall i j x y,
        (i < j)%nat ->
        nth_error (map time_period rows) i = Some (Some x) ->
        nth_error (map time_period rows) j = Some (Some y) ->
        x < y.
Proof.
  eexists. split; [apply bucket_by_period_ok|].
  pose proof (ordered_buckets_strict tz week (WHERE_username "getgrass_io" (JOIN d)))
    as Hs.
  induction Hs as [|a t Ht IH Ha]; intros i j x y Hij Hi Hj.
  - destruct i; discriminate.
  - destruct j as [|j]; [lia|]. cbn [map nth_error] in Hj.
    destruct i as [|i].
    + cbn in Hi. injection Hi as Hi.
      apply nth_error_In, in_map_iff in Hj as (b & Hb & Hin).
      rewrite Forall_forall in Ha. specialize (Ha b Hin).
      unfold period_lt in Ha. rewrite Hi, Hb in Ha. now apply key_ltb_Some.
    + cbn [map nth_error] in Hi. apply (IH i j); [lia | assumption | assumption].
Qed.

Lemma JOIN_no_tweets (l : list analyses.row) : JOIN (mk_database l []) = [].
Proof.
  unfold JOIN; cbn [tbl_analyses tbl_tweets filter map].
  induction l as [|a t IH]; cbn [flat_map]; [reflexivity | exact IH].
Qed.

(** C5: bucketing an empty collection of items gives the empty sequence of
    buckets, not an error, for every period type; so do the queries on a
    store without tweets. *)
Theorem bucket_by_period_empty (tz : time_zone) (field : period_type) :
  bucket_by_period tz field [] = Ok []
  /\ forall (u : string) (l : list analyses.row),
      period_analysis tz field u (mk_database l []) = Ok [].
Proof.
  split; [reflexivity|].
  intros u l. unfold period_analysis.
  rewrite JOIN_no_tweets. reflexivity.
Qed.

(** ** Ratios of a bucket *)

Lemma CASE_sentiment_valid (r : joined_row) :
  valid_label (tweets.sentiment (snd r)) = true ->
  CASE_sentiment "positive" r + CASE_sentiment "neutral" r
  + CASE_sentiment "negative" r = 1.
Proof.
  unfold valid_label, CASE_sentiment, eq_text.
  destruct (tweets.sentiment (snd r)) as [v|]; [|discriminate].
  destruct (String.eqb_spec v "positive") as [->|_]; [reflexivity|].
  destruct (String.eqb_spec v "neutral") as [->|_]; [reflexivity|].
  destruct (String.eqb_spec v "negative") as [->|_]; [reflexivity|].
  discriminate.
Qed.

(** In a group of validly labelled rows the three counts add up to the
    size of the group. *)
Lemma SUM_CASE_partition (g : list joined_row) :
  Forall (fun r => valid_label (tweets.sentiment (snd r)) = true) g ->
  SUM (CASE_sentiment "positive") g + SUM (CASE_sentiment "neutral") g
  + SUM (CASE_sentiment "negative") g = COUNT g.
Proof.
  unfold COUNT. induction 1 as [|r t Hr _ IH]; [reflexivity|].
  cbn [SUM fold_right List.length].
  fold (SUM (CASE_sentiment "positive") t) (SUM (CASE_sentiment "neutral") t)
       (SUM (CASE_sentiment "negative") t).
  pose proof (CASE_sentiment_valid r Hr). lia.
Qed.

Lemma thirds_add_up (a b c n : Z) :
  0 < n -> a + b + c = n ->
  ((a # Z.to_pos n) + (b # Z.to_pos n) + (c # Z.to_pos n) == 1)%Q.
Proof.
  intros Hn Hs. unfold Qeq, Qplus; cbn [Qnum Qden].
  rewrite !Pos2Z.inj_mul, !Z2Pos.id by lia. nia.
Qed.

Lemma ratio_sum_bucket_of (g : key * list joined_row) :
  snd g <> [] ->
  Forall (fun r => valid_label (tweets.sentiment (snd r)) = true) (snd g) ->
  (Qabs (ratio_sum (bucket_of g) - 1) <= tolerance)%Q.
Proof.
  intros Hne Hv.
  pose proof (COUNT_pos _ Hne) as Hc.
  pose proof (SUM_CASE_partition _ Hv) as Hsum.
  pose proof (SUM_CASE_bounds "positive" (snd g)) as Hp.
  pose proof (SUM_CASE_bounds "neutral" (snd g)) as Hn.
  pose proof (SUM_CASE_bounds "negative" (snd g)) as Hg.
  unfold ratio_sum, bucket_of;
    cbn [positive_ratio neutral_ratio negative_ratio].
  set (n := COUNT (snd g)) in *.
  set (p := SUM (CASE_sentiment "positive") (snd g)) in *.
  set (u := SUM (CASE_sentiment "neutral") (snd g)) in *.
  set (m := SUM (CASE_sentiment "negative") (snd g)) in *.
  pose proof (NumericFacts.div_var_close p n (Numeric.select_div_scale p n)
                ltac:(lia) ltac:(lia)
                (proj1 (NumericFacts.select_div_scale_part p n Hp))) as Ep.
  pose proof (NumericFacts.div_var_close u n (Numeric.select_div_scale u n)
                ltac:(lia) ltac:(lia)
                (proj1 (NumericFacts.select_div_scale_part u n Hn))) as Eu.
  pose proof (NumericFacts.div_var_close m n (Numeric.select_div_scale m n)
                ltac:(lia) ltac:(lia)
                (proj1 (NumericFacts.select_div_scale_part m n Hg))) as Em.
  pose proof (thirds_add_up p u m n ltac:(lia) Hsum) as Hone.
  apply Qabs_Qle_condition in Ep, Eu, Em.
  apply Qabs_Qle_condition. unfold tolerance.
  set (vp := Numeric.value _) in *.
  set (vu := Numeric.value (Numeric.div_var u n _)) in *.
  set (vm := Numeric.value (Numeric.div_var m n _)) in *.
  lra.
Qed.

(** C1: in every bucket that the period aggregation produces from classified
    items (each carrying one of the three labels), the three ratios add up to
    1 within the tolerance [1e-9]; each ratio is the count of the label
    divided by the bucket's [total_tweets], rounded by the engine at the
    sixteenth decimal or beyond. *)
Theorem ratios_sum_to_one (tz : time_zone)
  (field : period_type) (items : list joined_row)
  (rows : list TimeSeriesData) (b : TimeSeriesData) :
  bucket_by_period tz field items = Ok rows ->
  In b rows ->
  (forall r, In r items -> period_start tz field r = time_period b ->
             valid_label (tweets.sentiment (snd r)) = true) ->
  (Qabs (ratio_sum b - 1) <= tolerance)%Q.
Proof.
  intros Hq Hb Hvalid.
  rewrite bucket_by_period_ok in Hq. injection Hq as <-.
  apply sort_by_In, in_map_iff in Hb as (g & <- & Hg).
  apply GROUP_BY_group in Hg as [Hrows Hne].
  apply ratio_sum_bucket_of; [exact Hne|].
  rewrite Hrows. apply Forall_forall. intros r Hr.
  apply filter_In in Hr as [Hin Hk]. apply key_eqb_eq in Hk.
  now apply Hvalid.
Qed.

(** The second week of the sample: three thirds, each rounded down. *)
Lemma ratios_sum_to_one_witness :
  (exists rows,
      weekly_analysis Timestamp.UTC two_weeks_db = Ok rows
      /\ In second_week_bucket rows)
  /\ (Qabs (ratio_sum second_week_bucket - 1) <= tolerance)%Q.
Proof.
  split; [eexists; split; [vm_compute; reflexivity | right; left; reflexivity]|].
  eapply (ratios_sum_to_one Timestamp.UTC week
            (WHERE_username "getgrass_io" (JOIN two_weeks_db))).
  - vm_compute. reflexivity.
  - right. left. reflexivity.
  - intros r Hin _. vm_compute in Hin.
    repeat (destruct Hin as [<-|Hin]; [reflexivity|]). contradiction.
Defined.

(** ** Determinism *)

Lemma SUM_perm {R : Type} (e : R -> Z) (g g' : list R) :
  Permutation g g' -> SUM e g = SUM e g'.
Proof.
  unfold SUM.
  induction 1 as [|x l l' _ IH|x y l|l l' l'' _ IH1 _ IH2]; cbn [fold_right]; lia.
Qed.

Lemma COUNT_perm {R : Type} (g g' : list R) :
  Permutation g g' -> COUNT g = COUNT g'.
Proof. intros H. unfold COUNT. now rewrite (Permutation_length H). Qed.

Lemma bucket_of_perm (k : key) (g g' : list joined_row) :
  Permutation g g' -> bucket_of (k, g) = bucket_of (k, g').
Proof.
  intros H. unfold bucket_of; cbn [fst snd].
  rewrite (COUNT_perm g g' H).
  now rewrite !(SUM_perm _ g g' H).
Qed.

Lemma distinct_perm (ks ks' : list key) :
  Permutation ks ks' -> Permutation (distinct ks) (distinct ks').
Proof.
  intros H. apply NoDup_Permutation; try apply distinct_NoDup.
  intros k. rewrite !distinct_In.
  split; apply Permutation_in; [exact H | now symmetry].
Qed.

Lemma buckets_perm (f : joined_row -> key) (items items' : list joined_row) :
  Permutation items items' ->
  Permutation (map bucket_of (GROUP_BY f items)) (map bucket_of (GROUP_BY f items')).
Proof.
  intros H. unfold GROUP_BY. rewrite !map_map.
  rewrite (map_ext
             (fun k => bucket_of (k, filter (fun r => key_eqb (f r) k) items))
             (fun k => bucket_of (k, filter (fun r => key_eqb (f r) k) items'))).
  - apply Permutation_map, distinct_perm. now apply Permutation_map.
  - intros k. apply bucket_of_perm. now apply Permutation_filter.
Qed.

Lemma period_lt_asym (a b : TimeSeriesData) : period_lt a b -> period_lt b a -> False.
Proof.
  unfold period_lt. intros H1 H2. apply key_ltb_asym in H1. congruence.
Qed.

(** The rows depend on the collection of items, not on the order in which
    the items are stored or scanned. *)
Lemma bucket_by_period_perm (tz : time_zone) (field : period_type) (items items' : list joined_row) :
  Permutation items items' ->
  bucket_by_period tz field items = bucket_by_period tz field items'.
Proof.
  intros H. rewrite !bucket_by_period_ok. f_equal.
  apply (strictly_sorted_perm_eq period_lt period_lt_asym).
  - apply ordered_buckets_strict.
  - apply ordered_buckets_strict.
  - rewrite !ORDER_BY_1_perm. now apply buckets_perm.
Qed.

Lemma JOIN_perm (d d' : database) :
  Permutation (tbl_analyses d) (tbl_analyses d') ->
  Permutation (tbl_tweets d) (tbl_tweets d') ->
  Permutation (JOIN d) (JOIN d').
Proof.
  intros Ha Ht. unfold JOIN.
  etransitivity; [apply Permutation_flat_map; exact Ha|].
  apply Permutation_flat_map_pointwise. intros a.
  apply Permutation_map. now apply Permutation_filter.
Qed.

(** C7 (as amended): the bucketing is deterministic and idempotent once the
    session's time zone is counted among its inputs.  Its rows are a
    function of the period type, of the session's [TimeZone] and of the
    collection of stored items (two stores holding the same rows, in
    whatever physical order, give identical output in the same session);
    the query changes neither the store nor the session; and running it
    again in that session on that store returns identical rows. *)
Theorem period_analysis_deterministic
  (field : period_type) (u : string) (s : session) (d d' : database) :
  Permutation (tbl_analyses d) (tbl_analyses d') ->
  Permutation (tbl_tweets d) (tbl_tweets d') ->
  period_analysis (TimeZone s) field u d = period_analysis (TimeZone s) field u d'
  /\ execute (fun tz => period_analysis tz field u) s d
     = (s, d, period_analysis (TimeZone s) field u d)
  /\ snd (execute (fun tz => period_analysis tz field u)
            (fst (fst (execute (fun tz => period_analysis tz field u) s d)))
            (snd (fst (execute (fun tz => period_analysis tz field u) s d))))
     = snd (execute (fun tz => period_analysis tz field u) s d).
Proof.
  intros Ha Ht. split; [|split; reflexivity].
  unfold period_analysis. apply bucket_by_period_perm.
  unfold WHERE_username. apply Permutation_filter. now apply JOIN_perm.
Qed.

Lemma period_analysis_deterministic_witness :
  weekly_analysis Timestamp.UTC two_weeks_db
  = weekly_analysis Timestamp.UTC two_weeks_db_reordered
  /\ execute (fun tz => period_analysis tz week "getgrass_io")
       (mk_session Timestamp.UTC) two_weeks_db
     = (mk_session Timestamp.UTC, two_weeks_db,
        weekly_analysis Timestamp.UTC two_weeks_db)
  /\ snd (execute (fun tz => period_analysis tz week "getgrass_io")
            (fst (fst (execute (fun tz => period_analysis tz week "getgrass_io")
                         (mk_session Timestamp.UTC) two_weeks_db)))
            (snd (fst (execute (fun tz => period_analysis tz week "getgrass_io")
                         (mk_session Timestamp.UTC) two_weeks_db))))
     = snd (execute (fun tz => period_analysis tz week "getgrass_io")
              (mk_session Timestamp.UTC) two_weeks_db).
Proof.
  apply (period_analysis_deterministic week "getgrass_io"
           (mk_session Timestamp.UTC) two_weeks_db two_weeks_db_reordered).
  - apply Permutation_rev.
  - apply Permutation_rev.
Defined.

(** C7 (as stated) fails: the same store and the same period type give
    different rows in two sessions.  The only item was written on Sunday
    2025-03-16 at 20:00 UTC; a session in UTC puts it in the week of Monday
    the 10th, a session at +05:30 (where it is Monday 01:30) in the week
    that starts on the 16th at 18:30 UTC. *)
Lemma session_time_zone_changes_buckets :
  exists b1 b2,
    weekly_analysis Timestamp.UTC sunday_evening_db = Ok [b1]
    /\ weekly_analysis plus_0530 sunday_evening_db = Ok [b2]
    /\ time_period b1 = Some (9200 * Timestamp.USECS_PER_DAY)
    /\ time_period b2 = Some (9207 * Timestamp.USECS_PER_DAY - 19800000000)
    /\ weekly_analysis Timestamp.UTC sunday_evening_db
       <> weekly_analysis plus_0530 sunday_evening_db.
Proof.
  eexists. eexists.
  split; [vm_compute; reflexivity|].
  split; [vm_compute; reflexivity|].
  split; [reflexivity|]. split; [reflexivity|].
  vm_compute. discriminate.
Qed.

(** ** Labels and scores at the store and in the aggregation *)

Lemma CASE_sentiment_invalid (r : joined_row) :
  valid_label (tweets.sentiment (snd r)) = false ->
  CASE_sentiment "positive" r = 0
  /\ CASE_sentiment "neutral" r = 0
  /\ CASE_sentiment "negative" r = 0.
Proof.
  unfold valid_label, CASE_sentiment. intros H.
  apply orb_false_iff in H as [H H3]. apply orb_false_iff in H as [H1 H2].
  now rewrite H1, H2, H3.
Qed.



Lemma valid_or_not (domain : Q -> bool) (rows : list joined_row) :
  Forall (fun r => valid_item domain r = true) rows
  \/ Exists (fun r => valid_item domain r = false) rows.
Proof.
  induction rows as [|r t [IH|IH]].
  - left. constructor.
  - destruct (valid_item domain r) eqn:Hv; [left | right]; now constructor.
  - right. now constructor.
Qed.


(** The boundary on a batch that holds the item labelled "mixed". *)
Example mixed_item_refused :
  ingest_and_bucket unit_interval Timestamp.UTC week
    (WHERE_username "getgrass_io" (JOIN two_weeks_db) ++ [mixed_item])
  = Failed (AtIngestion (ValidationError 7)).
Proof. vm_compute. reflexivity. Qed.

(** ** The report builder *)

Example report_scenario :
  buildReport [day1_positive; day2_positive; day1_negative] 5
  = mk_SentimentReport (mk_Summary 2 0 1)
      [day2_positive; day1_positive] [] [day1_negative].
Proof. reflexivity. Qed.

Lemma ranks_before_false (a b : Tweet.t) :
  ranks_before b a = false <-> ranked_ge a b.
Proof.
  unfold ranks_before, ranked_ge.
  destruct (Qcompare_spec (Tweet.score b) (Tweet.score a)) as [E|L|G].
  - rewrite Z.ltb_ge. split.
    + intros H. right. split; [now symmetry | exact H].
    + intros [H|[_ H]]; [|exact H]. rewrite E in H. now apply Qlt_irrefl in H.
  - split; [intros _; now left | reflexivity].
  - split; [discriminate|].
    intros [H|[H _]].
    + exfalso. apply (Qlt_irrefl (Tweet.score a)). exact (Qlt_trans _ _ _ G H).
    + rewrite H in G. now apply Qlt_irrefl in G.
Qed.

Lemma ranks_before_true (a b : Tweet.t) :
  (Tweet.score a == Tweet.score b)%Q ->
  Tweet.created_at b < Tweet.created_at a ->
  ranks_before a b = true.
Proof.
  intros E L. unfold ranks_before.
  destruct (Qcompare_spec (Tweet.score a) (Tweet.score b)) as [_|H|_].
  - now apply Z.ltb_lt.
  - rewrite E in H. now apply Qlt_irrefl in H.
  - reflexivity.
Qed.

Lemma ranked_ge_trans (a b c : Tweet.t) : ranked_ge a b -> ranked_ge b c -> ranked_ge a c.
Proof.
  unfold ranked_ge. intros [H1|[E1 L1]] [H2|[E2 L2]].
  - left. exact (Qlt_trans _ _ _ H2 H1).
  - left. now rewrite <- E2.
  - left. now rewrite E1.
  - right. split; [now rewrite E1 | lia].
Qed.

Lemma ranks_before_asym (a b : Tweet.t) :
  ranks_before a b = true -> ranks_before b a = false.
Proof.
  intros H. apply ranks_before_false. unfold ranks_before in H. unfold ranked_ge.
  destruct (Qcompare_spec (Tweet.score a) (Tweet.score b)) as [E|L|G].
  - right. apply Z.ltb_lt in H. split; [exact E | lia].
  - discriminate.
  - now left.
Qed.

Lemma sort_ranked (l : list Tweet.t) : StronglySorted ranked_ge (sort_by ranks_before l).
Proof.
  assert (H : StronglySorted (may_precede ranks_before) (sort_by ranks_before l)).
  { apply sort_by_sorted.
    - apply ranks_before_asym.
    - unfold may_precede. intros x y z Hxy Hyz.
      apply ranks_before_false in Hxy, Hyz. apply ranks_before_false.
      now apply (ranked_ge_trans x y z). }
  induction H as [|a t _ IH Ha]; constructor; [exact IH|].
  eapply Forall_impl; [|exact Ha].
  intros b Hb. now apply ranks_before_false.
Qed.

Lemma StronglySorted_app_l {A : Type} (R : A -> A -> Prop) (l1 l2 : list A) :
  StronglySorted R (l1 ++ l2) -> StronglySorted R l1.
Proof.
  induction l1 as [|a t IH]; cbn [app]; intros H; [constructor|].
  apply StronglySorted_inv in H as [H Ha]. constructor; [now apply IH|].
  apply Forall_app in Ha. tauto.
Qed.

Lemma StronglySorted_mid {A : Type} (R : A -> A -> Prop) (l1 l2 : list A) (b : A) :
  StronglySorted R (l1 ++ b :: l2) -> Forall (R b) l2.
Proof.
  induction l1 as [|a t IH]; cbn [app]; intros H;
    apply StronglySorted_inv in H as [H Ha]; [exact Ha | now apply IH].
Qed.

Lemma ties_never_rank (s : Q) (c : timestamptz) (x y : Tweet.t) :
  ties_with s c x = true -> ties_with s c y = true -> ranks_before y x = false.
Proof.
  unfold ties_with. intros Hx Hy.
  apply andb_true_iff in Hx as [Hx1 Hx2]. apply andb_true_iff in Hy as [Hy1 Hy2].
  apply Qeq_bool_iff in Hx1, Hy1. apply Z.eqb_eq in Hx2, Hy2.
  apply ranks_before_false. right. split; [now rewrite Hx1, Hy1 | lia].
Qed.

Lemma top_list_ranking (items : list Tweet.t) (topN : nat) (lbl : string) :
  tie_broken_ranking items lbl (top_list topN lbl items).
Proof.
  unfold tie_broken_ranking, top_list.
  set (group := with_label lbl items).
  set (sorted := sort_by ranks_before group).
  pose proof (sort_ranked group) as Hs. fold sorted in Hs.
  pose proof (firstn_skipn topN sorted) as Hsplit.
  split; [|split].
  - apply (StronglySorted_app_l _ _ (skipn topN sorted)). now rewrite Hsplit.
  - intros a b Ha Hb E L Hin.
    apply in_split in Hin as (l1 & l3 & Htop).
    assert (Hsorted : sorted = l1 ++ b :: (l3 ++ skipn topN sorted)).
    { rewrite <- Hsplit at 1. rewrite Htop, <- app_assoc. reflexivity. }
    assert (Ha' : In a sorted) by (now apply sort_by_In).
    rewrite Hsorted in Ha'. apply in_app_or in Ha' as [Ha'|[Ha'|Ha']].
    + apply in_split in Ha' as (l1' & l2 & ->).
      exists l1', l2, l3. rewrite Htop, <- app_assoc. reflexivity.
    + subst a. lia.
    + exfalso. rewrite Hsorted in Hs. apply StronglySorted_mid in Hs.
      rewrite Forall_forall in Hs. specialize (Hs a Ha').
      apply ranks_before_false in Hs.
      rewrite (ranks_before_true a b E L) in Hs. discriminate.
  - intros s c. exists (filter (ties_with s c) (skipn topN sorted)).
    rewrite <- filter_app, Hsplit. unfold sorted.
    symmetry. apply sort_by_stable.
    intros x y. apply ties_never_rank.
Qed.

(** C3: in each per-label top list of [buildReport] the items stand in
    descending order of score; of two items with the same label and score
    but different [created_at] the later one comes first; and items tied on
    both keep their input order (the sort is stable). *)
Theorem top_lists_tie_break (items : list Tweet.t) (topN : nat) :
  tie_broken_ranking items "positive" (top_positive (buildReport items topN))
  /\ tie_broken_ranking items "neutral" (top_neutral (buildReport items topN))
  /\ tie_broken_ranking items "negative" (top_negative (buildReport items topN)).
Proof.
  cbn [buildReport top_positive top_neutral top_negative].
  repeat split; apply top_list_ranking.
Qed.

Lemma In_firstn {A : Type} (n : nat) (l : list A) (x : A) :
  In x (firstn n l) -> In x l.
Proof.
  intros H. rewrite <- (firstn_skipn n l). apply in_or_app. now left.
Qed.

Lemma top_list_never_padded (items : list Tweet.t) (topN : nat) (lbl : string) :
  never_padded items topN lbl (top_list topN lbl items).
Proof.
  unfold never_padded, top_list.
  rewrite length_firstn, sort_by_length.
  split; [lia|]. split; [lia|].
  apply Forall_forall. intros x Hx.
  apply In_firstn, sort_by_In in Hx.
  unfold with_label in Hx. apply filter_In in Hx as [Hin Hl].
  split; [exact Hin | now apply String.eqb_eq].
Qed.

(** C4: for every input and every [topN], each top list of [buildReport]
    has at most [topN] items and, when the items carrying its label are
    fewer than [topN], exactly as many items as there are; it holds input
    items of that label only (no padding), and [buildReport] is a total
    function (no error for a small group). *)
Theorem top_lists_length (items : list Tweet.t) (topN : nat) :
  never_padded items topN "positive" (top_positive (buildReport items topN))
  /\ never_padded items topN "neutral" (top_neutral (buildReport items topN))
  /\ never_padded items topN "negative" (top_negative (buildReport items topN)).
Proof.
  cbn [buildReport top_positive top_neutral top_negative].
  repeat split; apply top_list_never_padded.
Qed.

(** C6: on the empty collection [buildReport] returns a report, whose
    summary counts are all zero and whose three top lists are empty. *)
Theorem buildReport_empty (topN : nat) :
  summary (buildReport [] topN) = mk_Summary 0 0 0
  /\ top_positive (buildReport [] topN) = []
  /\ top_neutral (buildReport [] topN) = []
  /\ top_negative (buildReport [] topN) = [].
Proof.
  cbn [buildReport summary top_positive top_neutral top_negative].
  unfold top_list, with_label; cbn [filter sort_by].
  rewrite firstn_nil. repeat split.
Qed.

(** ** The API client *)

Lemma client_contract_intro
      (f : Api.fetch_type -> string -> Api.settled Api.json_value)
      (message : string) (url : string -> string)
      (init : string -> option Api.RequestInit) :
  (forall fetch username,
      f fetch username
      = Api.and_then (fetch (url username) (init username))
          (fun response =>
             if negb (Api.ok response) then Api.throw (Api.Error message)
             else Api.json response)) ->
  Api.client_contract f message.
Proof.
  intros Hf username. exists (url username), (init username). intros fetch.
  rewrite Hf. destruct (fetch (url username) (init username)) as [response|e];
    cbn [Api.and_then]; [|reflexivity].
  destruct (Api.ok response); cbn [negb].
  - split; [discriminate|]. split; [reflexivity|].
    intros v Hv. rewrite Hv. split; [intros [e He]; discriminate | discriminate].
  - split; [reflexivity|]. split; [discriminate|].
    intros v _. split; [reflexivity|]. intros _. now eexists.
Qed.

(** C10 (as amended): each of the four client functions makes one request;
    it throws its own [Error] whenever the response is not ok; on an ok
    response it returns the outcome of [response.json()], that is the parsed
    body, or the parse failure when the body is not JSON; when the body
    parses it throws exactly when the response is not ok; and a failure of
    [fetch] itself is passed on. *)
Theorem api_client_contract :
  Api.client_contract Api.getUserTweets "Failed to fetch user tweets"
  /\ Api.client_contract Api.getWeeklyAnalysis "Failed to fetch weekly analysis"
  /\ Api.client_contract Api.getSentimentReports "Failed to fetch sentiment reports"
  /\ Api.client_contract Api.analyzeTweets "Failed to analyze tweets".
Proof.
  split; [|split; [|split]].
  - apply (client_contract_intro _ _
             (fun _ => (Api.API_BASE_URL ++ "/user-tweets")%string)
             (fun username =>
                Some (Api.mk_RequestInit "POST"
                        [("Content-Type", "application/json")]%string
                        (Api.JObject [("username"%string, Api.JString username)])))).
    reflexivity.
  - apply (client_contract_intro _ _
             (fun username =>
                (Api.API_BASE_URL ++ "/user-tweets/weekly_or_monthly_analysis/"
                   ++ username)%string)
             (fun _ => None)).
    reflexivity.
  - apply (client_contract_intro _ _
             (fun username => (Api.API_BASE_URL ++ "/reports/" ++ username)%string)
             (fun _ => None)).
    reflexivity.
  - apply (client_contract_intro _ _
             (fun _ => (Api.API_BASE_URL ++ "/analyze")%string)
             (fun username =>
                Some (Api.mk_RequestInit "POST"
                        [("Content-Type", "application/json")]%string
                        (Api.JObject [("query"%string, Api.JString username);
                                      ("max_tweets"%string, Api.JNumber 15)])))).
    reflexivity.
Qed.

(** C10 (as stated) fails: the response is ok (status 200) but its body is
    not JSON; each of the four functions throws all the same, the
    [SyntaxError] of [response.json()]. *)
Lemma ok_response_unparsable_body :
  Api.ok Api.html_response = true
  /\ Api.getUserTweets Api.html_fetch "getgrass_io"
     = Api.Rejected (Api.SyntaxError "Unexpected token '<'")
  /\ Api.getWeeklyAnalysis Api.html_fetch "getgrass_io"
     = Api.Rejected (Api.SyntaxError "Unexpected token '<'")
  /\ Api.getSentimentReports Api.html_fetch "getgrass_io"
     = Api.Rejected (Api.SyntaxError "Unexpected token '<'")
  /\ Api.analyzeTweets Api.html_fetch "getgrass_io"
     = Api.Rejected (Api.SyntaxError "Unexpected token '<'").
Proof. repeat split. Qed.

(** * Further properties *)

(** ** Buckets partition the items *)

Lemma SUM_app {R : Type} (e : R -> Z) (l1 l2 : list R) :
  SUM e (l1 ++ l2) = SUM e l1 + SUM e l2.
Proof.
  unfold SUM. induction l1 as [|x t IH]; cbn [app fold_right]; lia.
Qed.

Lemma SUM_map {R S : Type} (e : S -> Z) (h : R -> S) (l : list R) :
  SUM e (map h l) = SUM (fun r => e (h r)) l.
Proof.
  unfold SUM. induction l as [|x t IH]; cbn [map fold_right]; [reflexivity|].
  now rewrite IH.
Qed.

Lemma SUM_ext {R : Type} (e e' : R -> Z) (l : list R) :
  (forall r, In r l -> e r = e' r) -> SUM e l = SUM e' l.
Proof.
  unfold SUM. induction l as [|x t IH]; intros H; cbn [fold_right]; [reflexivity|].
  rewrite (H x) by now left. rewrite IH; [reflexivity|].
  intros; apply H; now right.
Qed.

Lemma SUM_plus {R : Type} (e e' : R -> Z) (l : list R) :
  SUM (fun r => e r + e' r) l = SUM e l + SUM e' l.
Proof.
  unfold SUM. induction l as [|x t IH]; cbn [fold_right]; lia.
Qed.

(** Among pairwise distinct keys, exactly one equals a key of the list. *)
Lemma SUM_indicator (x : key) (ks : list key) :
  NoDup ks -> In x ks ->
  SUM (fun k => if key_eqb x k then 1 else 0) ks = 1.
Proof.
  induction 1 as [|k t Hk Hnd IH]; intros Hin; [contradiction|].
  unfold SUM; cbn [fold_right]. fold (SUM (fun k => if key_eqb x k then 1 else 0) t).
  destruct (key_eqb x k) eqn:E.
  - apply key_eqb_eq in E. subst k.
    rewrite (SUM_ext _ (fun _ => 0)).
    + unfold SUM. clear. induction t; cbn [fold_right]; lia.
    + intros k Hk'. destruct (key_eqb x k) eqn:E'; [|reflexivity].
      apply key_eqb_eq in E'. subst k. contradiction.
  - destruct Hin as [->|Hin]; [now rewrite key_eqb_refl in E|].
    rewrite IH by assumption. lia.
Qed.

Lemma COUNT_filter_cons {R : Type} (p : R -> bool) (x : R) (l : list R) :
  COUNT (filter p (x :: l)) = (if p x then 1 else 0) + COUNT (filter p l).
Proof.
  unfold COUNT. cbn [filter]. destruct (p x); cbn [List.length]; lia.
Qed.

(** Summed over the distinct keys, the group sizes give the number of
    rows. *)
Lemma group_sizes_add_up {R : Type} (f : R -> key) (rows : list R) (ks : list key) :
  NoDup ks -> (forall r, In r rows -> In (f r) ks) ->
  SUM (fun k => COUNT (filter (fun r => key_eqb (f r) k) rows)) ks = COUNT rows.
Proof.
  intros Hnd. induction rows as [|x t IH]; intros Hcov.
  - cbn [filter]. unfold COUNT; cbn [List.length].
    unfold SUM. clear. induction ks; cbn [fold_right]; lia.
  - rewrite (SUM_ext _ (fun k => (if key_eqb (f x) k then 1 else 0)
                                 + COUNT (filter (fun r => key_eqb (f r) k) t)))
      by (intros k _; exact (COUNT_filter_cons (fun r => key_eqb (f r) k) x t)).
    rewrite SUM_plus, IH by (intros; apply Hcov; now right).
    rewrite SUM_indicator by (try assumption; apply Hcov; now left).
    unfold COUNT; cbn [List.length]. lia.
Qed.

Lemma bucket_exists (tz : time_zone) (field : period_type) (items : list joined_row) (r : joined_row) :
  In r items ->
  exists b,
    In b (ORDER_BY_1 (map bucket_of (GROUP_BY (period_start tz field) items)))
    /\ time_period b = period_start tz field r.
Proof.
  intros Hr.
  assert (Hk : In (period_start tz field r)
                 (map time_period
                    (map bucket_of (GROUP_BY (period_start tz field) items)))).
  { rewrite bucket_periods. apply distinct_In. now apply in_map. }
  apply in_map_iff in Hk as (b & Hb & Hin).
  exists b. split; [now apply sort_by_In | exact Hb].
Qed.

(** Every item is counted in exactly one bucket: the [total_tweets] of the
    rows add up to the number of items. *)
Theorem buckets_partition_items (tz : time_zone) (field : period_type) (items : list joined_row) :
  exists rows,
    bucket_by_period tz field items = Ok rows
    /\ SUM total_tweets rows = COUNT items
    /\ forall r, In r items ->
                 exists b, In b rows /\ time_period b = period_start tz field r.
Proof.
  eexists. split; [apply bucket_by_period_ok|]. split.
  - rewrite (SUM_perm _ _ _ (ORDER_BY_1_perm _)).
    unfold GROUP_BY. rewrite map_map, SUM_map. cbn [bucket_of total_tweets snd].
    apply group_sizes_add_up; [apply distinct_NoDup|].
    intros r Hr. apply distinct_In. now apply in_map.
  - intros r Hr. now apply bucket_exists.
Qed.

(** ** Accuracy and range of the ratios *)

Lemma div_var_range (a n s : Z) :
  0 <= a <= n -> 0 < n -> 0 <= s ->
  (0 <= Numeric.value (Numeric.div_var a n s) <= 1)%Q.
Proof.
  intros Ha Hn Hs.
  pose proof (NumericFacts.pow10_pos s Hs) as Hp.
  pose proof (NumericFacts.round_div_bounds (a * 10 ^ s) n ltac:(nia) Hn) as Hr.
  unfold Numeric.value, Numeric.div_var; cbn [Numeric.unscaled Numeric.dscale].
  set (r := Numeric.round_div (a * 10 ^ s) n) in *.
  unfold Qle; cbn [Qnum Qden]. rewrite Z2Pos.id by lia.
  split; nia.
Qed.

Lemma bucket_of_rows (tz : time_zone) (field : period_type) (items : list joined_row) (b : TimeSeriesData) :
  In b (ORDER_BY_1 (map bucket_of (GROUP_BY (period_start tz field) items))) ->
  b = bucket_of (time_period b, rows_of tz field items (time_period b))
  /\ rows_of tz field items (time_period b) <> [].
Proof.
  intros Hb. apply sort_by_In, in_map_iff in Hb as (g & <- & Hg).
  apply GROUP_BY_group in Hg as [Hrows Hne].
  destruct g as [k rows]; cbn [fst snd] in *. subst rows.
  unfold bucket_of at 1 3; cbn [time_period fst snd]. unfold rows_of.
  split; [reflexivity | exact Hne].
Qed.

(** Each ratio of each bucket is the exact quotient "items of the bucket
    with that label / items of the bucket", up to half a unit of the
    sixteenth decimal. *)
Theorem ratios_are_accurate (tz : time_zone) (field : period_type) (items : list joined_row) :
  exists rows,
    bucket_by_period tz field items = Ok rows
    /\ Forall
         (fun b =>
            let g := rows_of tz field items (time_period b) in
            (Qabs (Numeric.value (positive_ratio b) - exact_ratio "positive" g)
             <= 1 # 20000000000000000)%Q
            /\ (Qabs (Numeric.value (neutral_ratio b) - exact_ratio "neutral" g)
                <= 1 # 20000000000000000)%Q
            /\ (Qabs (Numeric.value (negative_ratio b) - exact_ratio "negative" g)
                <= 1 # 20000000000000000)%Q)
         rows.
Proof.
  eexists. split; [apply bucket_by_period_ok|].
  apply Forall_forall. intros b Hb.
  apply bucket_of_rows in Hb as [Hb Hne].
  set (g := rows_of tz field items (time_period b)) in *. cbv zeta.
  pose proof (COUNT_pos _ Hne) as Hc.
  rewrite Hb. unfold bucket_of, exact_ratio;
    cbn [positive_ratio neutral_ratio negative_ratio fst snd].
  repeat split;
    (apply NumericFacts.div_var_close;
     [apply SUM_CASE_bounds | lia
      | apply NumericFacts.select_div_scale_part, SUM_CASE_bounds]).
Qed.

Lemma ratio_range (lbl : string) (g : list joined_row) :
  g <> [] ->
  (0 <= Numeric.value
          (Numeric.div_var (SUM (CASE_sentiment lbl) g) (COUNT g)
             (Numeric.select_div_scale (SUM (CASE_sentiment lbl) g) (COUNT g)))
   <= 1)%Q.
Proof.
  intros Hne. pose proof (COUNT_pos _ Hne) as Hc.
  pose proof (SUM_CASE_bounds lbl g) as Hb.
  pose proof (NumericFacts.select_div_scale_part _ _ Hb) as Hs.
  apply div_var_range; lia.
Qed.

(** Each ratio lies between 0 and 1, whatever the labels of the items. *)
Theorem ratios_in_unit_interval (tz : time_zone) (field : period_type) (items : list joined_row) :
  exists rows,
    bucket_by_period tz field items = Ok rows
    /\ Forall
         (fun b =>
            (0 <= Numeric.value (positive_ratio b) <= 1)%Q
            /\ (0 <= Numeric.value (neutral_ratio b) <= 1)%Q
            /\ (0 <= Numeric.value (negative_ratio b) <= 1)%Q)
         rows.
Proof.
  eexists. split; [apply bucket_by_period_ok|].
  apply Forall_forall. intros b Hb.
  apply bucket_of_rows in Hb as [Hb Hne].
  rewrite Hb. unfold bucket_of;
    cbn [positive_ratio neutral_ratio negative_ratio fst snd].
  split; [|split]; now apply ratio_range.
Qed.

Lemma ratio_close (lbl : string) (g : list joined_row) :
  g <> [] ->
  (Qabs (Numeric.value
           (Numeric.div_var (SUM (CASE_sentiment lbl) g) (COUNT g)
              (Numeric.select_div_scale (SUM (CASE_sentiment lbl) g) (COUNT g)))
         - exact_ratio lbl g)
   <= 1 # 20000000000000000)%Q.
Proof.
  intros Hne. pose proof (COUNT_pos _ Hne) as Hc.
  pose proof (SUM_CASE_bounds lbl g) as Hb.
  apply NumericFacts.div_var_close;
    [lia | lia | apply NumericFacts.select_div_scale_part, Hb].
Qed.

Lemma CASE_sentiment_exclusive (r : joined_row) :
  0 <= CASE_sentiment "positive" r + CASE_sentiment "neutral" r
       + CASE_sentiment "negative" r <= 1.
Proof.
  destruct (valid_label (tweets.sentiment (snd r))) eqn:E.
  - rewrite (CASE_sentiment_valid r E). lia.
  - destruct (CASE_sentiment_invalid r E) as (-> & -> & ->). lia.
Qed.

Lemma SUM_CASE_at_most_all (g : list joined_row) :
  SUM (CASE_sentiment "positive") g + SUM (CASE_sentiment "neutral") g
  + SUM (CASE_sentiment "negative") g <= COUNT g.
Proof.
  unfold COUNT. induction g as [|r t IH]; [reflexivity|].
  cbn [SUM fold_right List.length].
  fold (SUM (CASE_sentiment "positive") t) (SUM (CASE_sentiment "neutral") t)
       (SUM (CASE_sentiment "negative") t).
  pose proof (CASE_sentiment_exclusive r). lia.
Qed.

(** Whatever the labels, the three ratios of a bucket add up to at most 1
    (within the tolerance): an item counts for one label at most. *)
Theorem ratio_sum_at_most_one (tz : time_zone) (field : period_type) (items : list joined_row) :
  exists rows,
    bucket_by_period tz field items = Ok rows
    /\ Forall (fun b => (0 <= ratio_sum b <= 1 + tolerance)%Q) rows.
Proof.
  eexists. split; [apply bucket_by_period_ok|].
  apply Forall_forall. intros b Hb.
  apply bucket_of_rows in Hb as [Hb Hne].
  set (g := rows_of tz field items (time_period b)) in *.
  pose proof (COUNT_pos _ Hne) as Hc.
  pose proof (SUM_CASE_at_most_all g) as Hall.
  pose proof (SUM_CASE_bounds "positive" g) as Hp.
  pose proof (SUM_CASE_bounds "neutral" g) as Hn.
  pose proof (SUM_CASE_bounds "negative" g) as Hg.
  pose proof (ratio_range "positive" g Hne) as Rp.
  pose proof (ratio_range "neutral" g Hne) as Rn.
  pose proof (ratio_range "negative" g Hne) as Rg.
  pose proof (ratio_close "positive" g Hne) as Ep.
  pose proof (ratio_close "neutral" g Hne) as En.
  pose proof (ratio_close "negative" g Hne) as Eg.
  unfold exact_ratio in Ep, En, Eg.
  assert (Hex : ((SUM (CASE_sentiment "positive") g # Z.to_pos (COUNT g))
                 + (SUM (CASE_sentiment "neutral") g # Z.to_pos (COUNT g))
                 + (SUM (CASE_sentiment "negative") g # Z.to_pos (COUNT g)) <= 1)%Q).
  { unfold Qle, Qplus; cbn [Qnum Qden].
    rewrite !Pos2Z.inj_mul, !Z2Pos.id by lia.
    pose proof (Z.mul_le_mono_nonneg_r _ _ (COUNT g * COUNT g) ltac:(nia) Hall).
    lia. }
  apply Qabs_Qle_condition in Ep, En, Eg.
  rewrite Hb. unfold ratio_sum, bucket_of, tolerance;
    cbn [positive_ratio neutral_ratio negative_ratio fst snd].
  fold g.
  set (vp := Numeric.value _) in *.
  set (vn := Numeric.value (Numeric.div_var (SUM (CASE_sentiment "neutral") g) _ _)) in *.
  set (vg := Numeric.value (Numeric.div_var (SUM (CASE_sentiment "negative") g) _ _)) in *.
  lra.
Qed.

(** ** What the queries read from the store *)

Lemma flat_map_ext_in {A B : Type} (g h : A -> list B) (l : list A) :
  (forall a, In a l -> g a = h a) -> flat_map g l = flat_map h l.
Proof.
  induction l as [|a t IH]; intros H; cbn [flat_map]; [reflexivity|].
  rewrite (H a) by now left. rewrite IH; [reflexivity|].
  intros; apply H; now right.
Qed.

Lemma flat_map_nothing {A B : Type} (l : list A) :
  flat_map (fun _ : A => @nil B) l = [].
Proof. induction l as [|a t IH]; cbn [flat_map app]; [reflexivity | exact IH]. Qed.

Lemma filter_flat_map {A B : Type} (p : B -> bool) (g : A -> list B) (l : list A) :
  filter p (flat_map g l) = flat_map (fun a => filter p (g a)) l.
Proof.
  induction l as [|a t IH]; cbn [flat_map]; [reflexivity|].
  now rewrite filter_app, IH.
Qed.

Lemma filter_none {A : Type} (p : A -> bool) (l : list A) :
  (forall x, In x l -> p x = false) -> filter p l = [].
Proof.
  induction l as [|x t IH]; intros H; cbn [filter]; [reflexivity|].
  rewrite (H x) by now left. apply IH. intros; apply H; now right.
Qed.

Lemma filter_all {A : Type} (p : A -> bool) (l : list A) :
  (forall x, In x l -> p x = true) -> filter p l = l.
Proof.
  induction l as [|x t IH]; intros H; cbn [filter]; [reflexivity|].
  rewrite (H x) by now left. f_equal. apply IH. intros; apply H; now right.
Qed.

(** The tweets that the join pairs with analysis [a]. *)
Lemma WHERE_pairs (u : string) (a : analyses.row) (ts : list tweets.row) :
  WHERE_username u (map (pair a) ts)
  = if String.eqb (analyses.username a) u then map (pair a) ts else [].
Proof.
  unfold WHERE_username.
  destruct (String.eqb (analyses.username a) u) eqn:E.
  - apply filter_all. intros x Hx. apply in_map_iff in Hx as (t & <- & _). exact E.
  - apply filter_none. intros x Hx. apply in_map_iff in Hx as (t & <- & _). exact E.
Qed.

(** The selected items, analysis by analysis. *)
Lemma selected_by_analysis (u : string) (d : database) :
  selected u d
  = flat_map
      (fun a =>
         if String.eqb (analyses.username a) u
         then map (pair a)
                (filter (fun t => eq_int (analyses.analysis_id a) (tweets.analysis_id t))
                   (tbl_tweets d))
         else [])
      (tbl_analyses d).
Proof.
  unfold selected, JOIN. unfold WHERE_username at 1. rewrite filter_flat_map.
  apply flat_map_ext. intros a. apply (WHERE_pairs u a).
Qed.

(** Rows of other accounts, and tweets attached to no analysis of [u], do
    not influence the analysis of [u]: adding analyses of other users and
    tweets that match none of [u]'s stored analyses leaves the result as it
    was. *)
Theorem other_rows_ignored (tz : time_zone)
  (field : period_type) (u : string) (d : database)
  (more_analyses : list analyses.row) (more_tweets : list tweets.row) :
  (forall a, In a more_analyses -> analyses.username a <> u) ->
  (forall t a, In t more_tweets -> In a (tbl_analyses d) ->
               analyses.username a = u ->
               eq_int (analyses.analysis_id a) (tweets.analysis_id t) = false) ->
  period_analysis tz field u
    (mk_database (tbl_analyses d ++ more_analyses) (tbl_tweets d ++ more_tweets))
  = period_analysis tz field u d.
Proof.
  intros Ha Ht. unfold period_analysis. fold (selected u d).
  fold (selected u (mk_database (tbl_analyses d ++ more_analyses)
                      (tbl_tweets d ++ more_tweets))).
  f_equal. rewrite !selected_by_analysis. cbn [tbl_analyses tbl_tweets].
  rewrite flat_map_app.
  rewrite (flat_map_ext_in _ (fun _ => []) more_analyses).
  - rewrite flat_map_nothing, app_nil_r.
    apply flat_map_ext_in. intros a Hin.
    destruct (String.eqb (analyses.username a) u) eqn:E; [|reflexivity].
    apply String.eqb_eq in E.
    rewrite filter_app, (filter_none _ more_tweets), app_nil_r; [reflexivity|].
    intros t Hin'. now apply (Ht t a).
  - intros a Hin. destruct (String.eqb_spec (analyses.username a) u) as [E|_];
      [now apply Ha in Hin | reflexivity].
Qed.

Lemma other_rows_ignored_witness :
  period_analysis Timestamp.UTC week "getgrass_io"
    (mk_database (tbl_analyses own_db ++ [foreign_analysis])
       (tbl_tweets own_db ++ [foreign_tweet]))
  = period_analysis Timestamp.UTC week "getgrass_io" own_db.
Proof.
  apply other_rows_ignored.
  - intros a [<-|[]]. discriminate.
  - intros t a [<-|[]] [<-|[]] _. reflexivity.
Defined.

(** ** A new tweet in the analysis *)

Lemma Permutation_flat_map_app {A B : Type} (g h : A -> list B) (l : list A) :
  Permutation (flat_map (fun a => g a ++ h a) l) (flat_map g l ++ flat_map h l).
Proof.
  induction l as [|a t IH]; cbn [flat_map]; [reflexivity|].
  rewrite IH, <- !app_assoc. apply Permutation_app_head.
  rewrite !app_assoc. apply Permutation_app_tail. apply Permutation_app_comm.
Qed.

(** With unique analysis ids, a tweet is paired with the one analysis it
    refers to. *)
Lemma unique_match (l : list analyses.row) (a : analyses.row) (r : tweets.row) :
  NoDup (map analyses.analysis_id l) ->
  In a l ->
  tweets.analysis_id r = Some (analyses.analysis_id a) ->
  flat_map
    (fun a' =>
       if eq_int (analyses.analysis_id a') (tweets.analysis_id r) then [(a', r)] else [])
    l
  = [(a, r)].
Proof.
  intros Hnd Hin Hfk. rewrite Hfk. cbn [eq_int].
  induction l as [|x t IH]; [contradiction|].
  cbn [map] in Hnd. inversion Hnd as [|? ? Hx Hnd']; subst.
  cbn [flat_map]. destruct Hin as [->|Hin].
  - rewrite Z.eqb_refl. cbn [app]. f_equal.
    rewrite (flat_map_ext_in _ (fun _ => [])); [apply flat_map_nothing|].
    intros a' Ha'. destruct (Z.eqb_spec (analyses.analysis_id a') (analyses.analysis_id a))
      as [E|_]; [|reflexivity].
    exfalso. apply Hx. rewrite <- E. now apply in_map.
  - destruct (Z.eqb_spec (analyses.analysis_id x) (analyses.analysis_id a)) as [E|_].
    + exfalso. apply Hx. rewrite E. now apply in_map.
    + cbn [app]. now apply IH.
Qed.

Lemma JOIN_after_insert (d : database) (a : analyses.row) (r : tweets.row) :
  NoDup (map analyses.analysis_id (tbl_analyses d)) ->
  In a (tbl_analyses d) ->
  tweets.analysis_id r = Some (analyses.analysis_id a) ->
  Permutation (JOIN (mk_database (tbl_analyses d) (tbl_tweets d ++ [r])))
              (JOIN d ++ [(a, r)]).
Proof.
  intros Hnd Hin Hfk. unfold JOIN; cbn [tbl_analyses tbl_tweets].
  rewrite <- (unique_match (tbl_analyses d) a r Hnd Hin Hfk).
  rewrite <- Permutation_flat_map_app.
  rewrite (flat_map_ext_in _
             (fun a' =>
                map (pair a')
                  (filter (fun t => eq_int (analyses.analysis_id a') (tweets.analysis_id t))
                     (tbl_tweets d))
                ++ (if eq_int (analyses.analysis_id a') (tweets.analysis_id r)
                    then [(a', r)] else []))); [reflexivity|].
  intros a' _. rewrite filter_app, map_app. cbn [filter].
  now destruct (eq_int (analyses.analysis_id a') (tweets.analysis_id r)).
Qed.

Lemma bucket_size_after_insert (tz : time_zone)
      (field : period_type) (u : string) (d : database)
      (a : analyses.row) (r : tweets.row) (k : key) :
  NoDup (map analyses.analysis_id (tbl_analyses d)) ->
  In a (tbl_analyses d) ->
  tweets.analysis_id r = Some (analyses.analysis_id a) ->
  analyses.username a = u ->
  bucket_size tz field u (mk_database (tbl_analyses d) (tbl_tweets d ++ [r])) k
  = bucket_size tz field u d k
    + (if key_eqb (period_start tz field (a, r)) k then 1 else 0).
Proof.
  intros Hnd Hin Hfk Hu. unfold bucket_size, selected, WHERE_username.
  rewrite (COUNT_perm _ _
             (Permutation_filter _ _ _
                (Permutation_filter _ _ _ (JOIN_after_insert d a r Hnd Hin Hfk)))).
  rewrite !filter_app. cbn [filter fst].
  rewrite Hu, String.eqb_refl. cbn [filter].
  unfold COUNT. rewrite length_app.
  destruct (key_eqb (period_start tz field (a, r)) k); cbn [List.length].
  all: rewrite Nat2Z.inj_add; reflexivity.
Qed.

(** When a tweet of one of [u]'s analyses is added to the [tweets] table,
    the analysis of [u] counts it once, in the bucket of its period: that
    bucket exists and its [total_tweets] is one more than the number of
    items the period had, and every other bucket has the count it had.
    This rests on the primary key of [analyses]: the tweet is joined with
    one analysis only. *)
Theorem inserted_tweet_counted_once (tz : time_zone)
  (field : period_type) (u : string) (d : database)
  (a : analyses.row) (r : tweets.row) :
  analyses_pkey d ->
  In a (tbl_analyses d) ->
  tweets.analysis_id r = Some (analyses.analysis_id a) ->
  analyses.username a = u ->
  exists rows,
    period_analysis tz field u (mk_database (tbl_analyses d) (tbl_tweets d ++ [r]))
    = Ok rows
    /\ (exists b, In b rows
                  /\ time_period b = period_start tz field (a, r)
                  /\ total_tweets b = bucket_size tz field u d (time_period b) + 1)
    /\ (forall b, In b rows ->
                  time_period b <> period_start tz field (a, r) ->
                  total_tweets b = bucket_size tz field u d (time_period b)).
Proof.
  intros Hnd Hin Hfk Hu. unfold analyses_pkey in Hnd.
  assert (Htotal : forall b,
             In b (ORDER_BY_1
                     (map bucket_of
                        (GROUP_BY (period_start tz field)
                           (selected u (mk_database (tbl_analyses d)
                                          (tbl_tweets d ++ [r]))))))  ->
             total_tweets b
             = bucket_size tz field u d (time_period b)
               + (if key_eqb (period_start tz field (a, r)) (time_period b) then 1 else 0)).
  { intros b Hb. apply bucket_of_rows in Hb as [Hb _].
    rewrite <- (bucket_size_after_insert tz field u d a r _ Hnd Hin Hfk Hu).
    rewrite Hb at 1. reflexivity. }
  eexists. split; [apply bucket_by_period_ok|]. fold (selected u
    (mk_database (tbl_analyses d) (tbl_tweets d ++ [r]))). split.
  - destruct (bucket_exists tz field
                (selected u (mk_database (tbl_analyses d) (tbl_tweets d ++ [r])))
                (a, r)) as (b & Hb & Hk).
    { unfold selected, WHERE_username. apply filter_In. split.
      - eapply Permutation_in;
          [symmetry; apply (JOIN_after_insert d a r Hnd Hin Hfk)|].
        apply in_or_app. right. now left.
      - cbn [fst]. rewrite Hu. apply String.eqb_refl. }
    exists b. split; [exact Hb|]. split; [exact Hk|].
    rewrite (Htotal b Hb), Hk, key_eqb_refl. reflexivity.
  - intros b Hb Hne. rewrite (Htotal b Hb).
    destruct (key_eqb (period_start tz field (a, r)) (time_period b)) eqn:E.
    + apply key_eqb_eq in E. congruence.
    + lia.
Qed.

Lemma inserted_tweet_counted_once_witness :
  exists rows,
    period_analysis Timestamp.UTC week "getgrass_io"
      (mk_database (tbl_analyses own_db) (tbl_tweets own_db ++ [new_tweet]))
    = Ok rows
    /\ (exists b, In b rows
                  /\ time_period b
                     = period_start Timestamp.UTC week
                         (sample_analysis 1 "getgrass_io", new_tweet)
                  /\ total_tweets b
                     = bucket_size Timestamp.UTC week "getgrass_io" own_db
                         (time_period b) + 1)
    /\ (forall b, In b rows ->
                  time_period b
                  <> period_start Timestamp.UTC week
                       (sample_analysis 1 "getgrass_io", new_tweet) ->
                  total_tweets b
                  = bucket_size Timestamp.UTC week "getgrass_io" own_db (time_period b)).
Proof.
  apply (inserted_tweet_counted_once Timestamp.UTC week "getgrass_io" own_db).
  - repeat constructor. intros [].
  - left. reflexivity.
  - reflexivity.
  - reflexivity.
Defined.

(** ** Weeks *)

Lemma truncate_midnight (field : period_type) (t : Z) :
  Timestamp.truncate field t mod Timestamp.USECS_PER_DAY = 0.
Proof. unfold Timestamp.truncate. destruct field; apply Z.mod_mul; discriminate. Qed.

Lemma truncate_week_monday (t : Z) :
  Timestamp.day_of_week (Timestamp.date_of (Timestamp.truncate week t)) = 0.
Proof.
  unfold Timestamp.truncate, Timestamp.date_of, Timestamp.day_of_week.
  rewrite Z.div_mul by discriminate.
  Z.to_euclidean_division_equations; lia.
Qed.

Lemma truncate_week_gap (t1 t2 : Z) :
  Timestamp.truncate week t1 < Timestamp.truncate week t2 ->
  Timestamp.truncate week t1 + 7 * Timestamp.USECS_PER_DAY
  <= Timestamp.truncate week t2.
Proof.
  unfold Timestamp.truncate, Timestamp.date_of, Timestamp.day_of_week,
    Timestamp.USECS_PER_DAY.
  Z.to_euclidean_division_equations; lia.
Qed.

Lemma bucket_origin (tz : time_zone) (field : period_type) (items : list joined_row)
      (b : TimeSeriesData) :
  In b (ORDER_BY_1 (map bucket_of (GROUP_BY (period_start tz field) items))) ->
  exists r, In r items /\ period_start tz field r = time_period b.
Proof.
  intros Hb. apply bucket_of_rows in Hb as [_ Hne].
  destruct (rows_of tz field items (time_period b)) as [|r t] eqn:E; [congruence|].
  assert (Hr : In r (rows_of tz field items (time_period b))) by (rewrite E; now left).
  unfold rows_of in Hr. apply filter_In in Hr as [Hin Hk].
  exists r. split; [exact Hin | now apply key_eqb_eq].
Qed.

(** In a session whose time zone has one fixed offset (UTC is the case
    [offset = 0]), the rows of the weekly analysis stand for disjoint
    weeks: every non-null [week_start] is a Monday at midnight on the
    session's clock, and two different ones are at least seven days
    apart. *)
Theorem weekly_buckets_are_disjoint_weeks (offset : Z) (d : database) :
  exists rows,
    weekly_analysis (Timestamp.fixed_zone offset) d = Ok rows
    /\ (forall b s, In b rows -> time_period b = Some s ->
                    Timestamp.day_of_week (Timestamp.date_of (s + offset)) = 0
                    /\ (s + offset) mod Timestamp.USECS_PER_DAY = 0)
    /\ (forall b1 b2 s1 s2,
           In b1 rows -> In b2 rows ->
           time_period b1 = Some s1 -> time_period b2 = Some s2 ->
           s1 <> s2 ->
           s1 + 7 * Timestamp.USECS_PER_DAY <= s2
           \/ s2 + 7 * Timestamp.USECS_PER_DAY <= s1).
Proof.
  eexists. split; [apply bucket_by_period_ok|].
  assert (Hweek : forall b s,
             In b (ORDER_BY_1
                     (map bucket_of
                        (GROUP_BY (period_start (Timestamp.fixed_zone offset) week)
                           (WHERE_username "getgrass_io" (JOIN d))))) ->
             time_period b = Some s ->
             exists t, s = Timestamp.truncate week t - offset).
  { intros b s Hb Hs. apply bucket_origin in Hb as (r & _ & Hr).
    rewrite Hs in Hr. unfold period_start in Hr.
    destruct (tweets.created_at (snd r)) as [ts|]; [|discriminate].
    cbn [option_map] in Hr. injection Hr as <-.
    now exists (ts + offset). }
  split.
  - intros b s Hb Hs. destruct (Hweek b s Hb Hs) as [t ->].
    replace (Timestamp.truncate week t - offset + offset)
      with (Timestamp.truncate week t) by lia.
    split; [apply truncate_week_monday | apply truncate_midnight].
  - intros b1 b2 s1 s2 H1 H2 E1 E2 Hne.
    destruct (Hweek b1 s1 H1 E1) as [t1 ->].
    destruct (Hweek b2 s2 H2 E2) as [t2 ->].
    destruct (Z.lt_total (Timestamp.truncate week t1) (Timestamp.truncate week t2))
      as [L|[E|G]].
    + left. pose proof (truncate_week_gap t1 t2 L). lia.
    + rewrite E in Hne. contradiction.
    + right. pose proof (truncate_week_gap t2 t1 G). lia.
Qed.

(** ** The monthly analysis *)

Lemma StronglySorted_map {A B : Type} (R : B -> B -> Prop) (h : A -> B) (l : list A) :
  StronglySorted (fun x y => R (h x) (h y)) l -> StronglySorted R (map h l).
Proof.
  induction 1 as [|a t _ IH Ha]; cbn [map]; constructor; [exact IH|].
  apply Forall_map. exact Ha.
Qed.

(** "Monthly Analysis" never fails; it returns one row for each calendar
    month in which the account has an item, the rows in strictly ascending
    order of [month_start] and without repetition. *)
Theorem monthly_analysis_ordered (tz : time_zone) (d : database) :
  exists rows,
    monthly_analysis tz d = Ok rows
    /\ StronglySorted month_lt rows
    /\ NoDup (map month_start rows)
    /\ forall k,
        In k (map month_start rows)
        <-> exists r, In r (selected "getgrass_io" d) /\ period_start tz month r = k.
Proof.
  unfold monthly_analysis, period_analysis.
  rewrite bucket_by_period_ok. cbn [bind]. fold (selected "getgrass_io" d).
  eexists. split; [reflexivity|].
  set (rows := ORDER_BY_1 (map bucket_of
                             (GROUP_BY (period_start tz month) (selected "getgrass_io" d)))).
  assert (Hkeys : map month_start
                    (map (fun b => mk_MonthlyData (time_period b) (positive_ratio b)
                                     (neutral_ratio b) (negative_ratio b)) rows)
                  = map time_period rows).
  { rewrite map_map. reflexivity. }
  split; [|split].
  - apply StronglySorted_map. unfold month_lt; cbn [month_start].
    apply ordered_buckets_strict.
  - rewrite Hkeys.
    eapply Permutation_NoDup;
      [|apply (bucket_periods_NoDup tz month (selected "getgrass_io" d))].
    apply Permutation_map. symmetry. apply ORDER_BY_1_perm.
  - intros k. rewrite Hkeys. split.
    + intros Hk. apply in_map_iff in Hk as (b & <- & Hb).
      now apply bucket_origin in Hb.
    + intros (r & Hr & <-).
      destruct (bucket_exists tz month _ r Hr) as (b & Hb & Hk).
      rewrite <- Hk. now apply in_map.
Qed.

(** ** The search bar *)

Module SearchBarFacts.
Import SearchBar.

Lemma trimStart_split (s : jsstring) :
  exists l, s = l ++ trimStart s /\ forallb is_whitespace l = true.
Proof.
  induction s as [|c t (l & Hl & Hw)]; cbn [trimStart].
  - now exists [].
  - destruct (is_whitespace c) eqn:E.
    + exists (c :: l). cbn [app forallb]. rewrite E, Hw. split; [now f_equal | reflexivity].
    + now exists [].
Qed.

Lemma trimStart_head (s : jsstring) (c : Z) :
  hd_error (trimStart s) = Some c -> is_whitespace c = false.
Proof.
  induction s as [|x t IH]; cbn [trimStart]; [discriminate|].
  destruct (is_whitespace x) eqn:E; [exact IH|].
  cbn [hd_error]. now intros [= <-].
Qed.

Lemma trimStart_fixed (s : jsstring) :
  (forall c, hd_error s = Some c -> is_whitespace c = false) -> trimStart s = s.
Proof.
  destruct s as [|c t]; [reflexivity|]. intros H. cbn [trimStart].
  now rewrite (H c eq_refl).
Qed.

Lemma trimStart_blank (s : jsstring) :
  trimStart s = [] <-> forallb is_whitespace s = true.
Proof.
  induction s as [|c t IH]; cbn [trimStart forallb]; [tauto|].
  destruct (is_whitespace c); cbn [andb]; [exact IH|].
  split; discriminate.
Qed.

Lemma trimEnd_split (s : jsstring) :
  exists r, s = trimEnd s ++ r /\ forallb is_whitespace r = true.
Proof.
  unfold trimEnd. destruct (trimStart_split (rev s)) as (l & Hl & Hw).
  exists (rev l). split.
  - rewrite <- rev_app_distr, <- Hl. symmetry. apply rev_involutive.
  - rewrite forallb_forall in *. intros c Hc. apply Hw. now apply in_rev.
Qed.

(** Stripping at the end leaves the start alone. *)
Lemma trimEnd_head (s : jsstring) (c : Z) :
  hd_error (trimEnd s) = Some c -> hd_error s = Some c.
Proof.
  destruct (trimEnd_split s) as (r & Hs & _).
  intros H. rewrite Hs. destruct (trimEnd s); [discriminate | exact H].
Qed.

Lemma trim_trimmed (s : jsstring) : trimmed (trim s).
Proof.
  unfold trimmed, trim. split.
  - intros c Hc. apply trimEnd_head in Hc. now apply trimStart_head in Hc.
  - intros c. unfold trimEnd. rewrite rev_involutive. apply trimStart_head.
Qed.

Lemma trimmed_fixed (s : jsstring) : trimmed s -> trim s = s.
Proof.
  intros [Hh Hl]. unfold trim, trimEnd.
  rewrite (trimStart_fixed s Hh), (trimStart_fixed (rev s) Hl).
  apply rev_involutive.
Qed.

Lemma trim_blank (s : jsstring) :
  trim s = [] <-> forallb is_whitespace s = true.
Proof.
  unfold trim. split.
  - intros H. destruct (trimEnd_split (trimStart s)) as (r & Hr & Hw).
    rewrite H in Hr. cbn [app] in Hr.
    destruct (trimStart_split s) as (l & Hl & Hwl).
    rewrite Hl, Hr, forallb_app, Hwl, Hw. reflexivity.
  - intros H. apply trimStart_blank in H. rewrite H. reflexivity.
Qed.

(** [handleSubmit] always prevents the default submission; it searches
    exactly when the input holds something other than white space, and
    then with a name that is not empty. *)
Theorem handleSubmit_searches_unless_blank
  {A : Type} (onSearch : jsstring -> A) (username : jsstring) :
  defaultPrevented (handleSubmit onSearch username) = true
  /\ (forallb is_whitespace username = true ->
      searched (handleSubmit onSearch username) = None)
  /\ (forallb is_whitespace username = false ->
      searched (handleSubmit onSearch username) = Some (onSearch (trim username))
      /\ trim username <> []).
Proof.
  unfold handleSubmit; cbn [defaultPrevented searched].
  split; [reflexivity|]. split.
  - intros H. apply trim_blank in H. now rewrite H.
  - intros H.
    assert (Hne : trim username <> []).
    { intros E. apply trim_blank in E. congruence. }
    split; [|exact Hne].
    destruct (trim username); [congruence | reflexivity].
Qed.

(** The name handed to [onSearch] is the input without the white space
    around it: the input is that name between two runs of white space, and
    the name neither starts nor ends with white space. *)
Theorem trim_strips_both_ends (username : jsstring) :
  (exists l r,
      username = l ++ trim username ++ r
      /\ forallb is_whitespace l = true
      /\ forallb is_whitespace r = true)
  /\ trimmed (trim username).
Proof.
  split; [|apply trim_trimmed].
  destruct (trimStart_split username) as (l & Hl & Hwl).
  destruct (trimEnd_split (trimStart username)) as (r & Hr & Hwr).
  exists l, r. unfold trim. rewrite <- Hr. now repeat split.
Qed.

(** A name without white space around it passes unchanged, so trimming
    twice is trimming once. *)
Theorem trim_keeps_trimmed_names (username : jsstring) :
  trim (trim username) = trim username
  /\ (trimmed username -> trim username = username).
Proof.
  split; [apply trimmed_fixed, trim_trimmed | apply trimmed_fixed].
Qed.

Example handleSubmit_padded_name :
  searched (handleSubmit (fun name => name) padded_name)
  = Some [103; 101; 116; 103; 114; 97; 115; 115; 95; 105; 111].
Proof. reflexivity. Qed.

End SearchBarFacts.

(** ** The page *)

Module HomeFacts.
Import Api Home.

Lemma instanceof_Error_always (err : js_error) : instanceof_Error err = true.
Proof. now destruct err. Qed.

(** The course of [handleSearch], step by step. *)
Lemma handleSearch_steps (fetch : fetch_type) (username : string) (s : state) :
  handleSearch fetch username s
  = let failed (data : js_value) (err : js_error) :=
      (mk_state data (sentimentReport s) false (Some (message err)), Fulfilled tt) in
    match getUserTweets fetch username with
    | Rejected err => failed (timeSeriesData s) err
    | Fulfilled _ =>
        match getWeeklyAnalysis fetch username with
        | Rejected err => failed (timeSeriesData s) err
        | Fulfilled timeSeriesJson =>
            match get_data timeSeriesJson with
            | Rejected err => failed (timeSeriesData s) err
            | Fulfilled data =>
                match getSentimentReports fetch username with
                | Rejected err => failed data err
                | Fulfilled reportJson =>
                    match get_0 reportJson with
                    | Rejected err => failed data err
                    | Fulfilled first => (mk_state data first false None, Fulfilled tt)
                    end
                end
            end
        end
    end.
Proof.
  unfold handleSearch, then_do, try_catch_finally, awaiting, setLoading, setError,
    setTimeSeriesData, setSentimentReport.
  cbn [timeSeriesData sentimentReport loading error].
  destruct (getUserTweets fetch username) as [?|e];
    [|now rewrite (instanceof_Error_always e)].
  destruct (getWeeklyAnalysis fetch username) as [tsj|e];
    [|now rewrite (instanceof_Error_always e)].
  destruct (get_data tsj) as [data|e];
    [|now rewrite (instanceof_Error_always e)].
  cbn [timeSeriesData sentimentReport loading error].
  destruct (getSentimentReports fetch username) as [rj|e];
    [|now rewrite (instanceof_Error_always e)].
  destruct (get_0 rj) as [first|e];
    [reflexivity | now rewrite (instanceof_Error_always e)].
Qed.

Lemma handleSearch_end (fetch : fetch_type) (username : string) (s : state) :
  snd (handleSearch fetch username s) = Fulfilled tt
  /\ loading (fst (handleSearch fetch username s)) = false.
Proof.
  rewrite handleSearch_steps. cbv zeta.
  destruct (getUserTweets fetch username); [|now split].
  destruct (getWeeklyAnalysis fetch username) as [tsj|]; [|now split].
  destruct (get_data tsj); [|now split].
  destruct (getSentimentReports fetch username) as [rj|]; [|now split].
  destruct (get_0 rj); now split.
Qed.

(** [handleSearch] never throws, whatever the requests do, and it always
    ends with the spinner turned off. *)
Theorem handleSearch_settles (fetch : fetch_type) (username : string) (s : state) :
  exists s',
    handleSearch fetch username s = (s', Fulfilled tt)
    /\ loading s' = false.
Proof.
  destruct (handleSearch_end fetch username s) as [Hr Hl].
  exists (fst (handleSearch fetch username s)). split; [|exact Hl].
  rewrite <- Hr. apply surjective_pairing.
Qed.

(** A search ends without an error exactly when the three requests were
    answered and neither the weekly payload nor the reports payload is
    [null]; the cells then hold the [data] member of the one and the first
    element of the other. *)
Theorem handleSearch_succeeds_iff (fetch : fetch_type) (username : string) (s : state) :
  (forall tweets timeSeriesJson data reportJson first,
      getUserTweets fetch username = Fulfilled tweets ->
      getWeeklyAnalysis fetch username = Fulfilled timeSeriesJson ->
      get_data timeSeriesJson = Fulfilled data ->
      getSentimentReports fetch username = Fulfilled reportJson ->
      get_0 reportJson = Fulfilled first ->
      fst (handleSearch fetch username s) = mk_state data first false None)
  /\ (error (fst (handleSearch fetch username s)) = None ->
      exists tweets timeSeriesJson reportJson,
        getUserTweets fetch username = Fulfilled tweets
        /\ getWeeklyAnalysis fetch username = Fulfilled timeSeriesJson
        /\ timeSeriesJson <> JNull
        /\ getSentimentReports fetch username = Fulfilled reportJson
        /\ reportJson <> JNull).
Proof.
  rewrite handleSearch_steps. cbv zeta. split.
  - intros tweets tsj data rj first -> -> -> -> ->. reflexivity.
  - destruct (getUserTweets fetch username) as [tweets|]; [|discriminate].
    destruct (getWeeklyAnalysis fetch username) as [tsj|]; [|discriminate].
    destruct (get_data tsj) as [data|] eqn:Hd; [|discriminate].
    destruct (getSentimentReports fetch username) as [rj|]; [|discriminate].
    destruct (get_0 rj) as [first|] eqn:H0; [|discriminate].
    intros _. exists tweets, tsj, rj.
    repeat split; try reflexivity.
    + intros ->. discriminate.
    + intros ->. discriminate.
Qed.

(** A search that fails leaves the report as it was; when it fails before
    the weekly payload has been read, it leaves the chart data as they were
    too. *)
Theorem failed_search_keeps_report (fetch : fetch_type) (username : string) (s : state) :
  let s' := fst (handleSearch fetch username s) in
  (error s' <> None -> sentimentReport s' = sentimentReport s)
  /\ ((exists err, getUserTweets fetch username = Rejected err)
      \/ (exists err, getWeeklyAnalysis fetch username = Rejected err)
      \/ getWeeklyAnalysis fetch username = Fulfilled JNull ->
      error s' <> None
      /\ timeSeriesData s' = timeSeriesData s
      /\ sentimentReport s' = sentimentReport s).
Proof.
  cbv zeta. rewrite handleSearch_steps. cbv zeta. split.
  - destruct (getUserTweets fetch username); [|reflexivity].
    destruct (getWeeklyAnalysis fetch username) as [tsj|]; [|reflexivity].
    destruct (get_data tsj); [|reflexivity].
    destruct (getSentimentReports fetch username) as [rj|]; [|reflexivity].
    destruct (get_0 rj); [|reflexivity].
    cbn [fst error]. congruence.
  - intros [[err ->]|[[err H]|H]].
    + cbn [fst error timeSeriesData sentimentReport]. repeat split. discriminate.
    + destruct (getUserTweets fetch username);
        [rewrite H|]; cbn [fst error timeSeriesData sentimentReport];
        repeat split; discriminate.
    + destruct (getUserTweets fetch username);
        [rewrite H|]; cbn [get_data fst error timeSeriesData sentimentReport];
        repeat split; discriminate.
Qed.

(** After a search that failed with a message, the page shows the banner
    with that message and nothing else: no spinner, and neither the chart
    nor the summary, whatever the cells hold from earlier searches. *)
Theorem failed_search_shows_only_banner
  (coerced_positive : json_value -> bool)
  (fetch : fetch_type) (username : string) (s : state) (m : string) :
  error (fst (handleSearch fetch username s)) = Some m ->
  m <> ""%string ->
  view coerced_positive (fst (handleSearch fetch username s))
  = Fulfilled (mk_screen false (Some m) None None).
Proof.
  intros He Hm.
  destruct (handleSearch_end fetch username s) as [_ Hl].
  set (s' := fst (handleSearch fetch username s)) in *.
  assert (Ht : error_truthy (error s') = true).
  { rewrite He. cbn [error_truthy]. apply negb_true_iff.
    now apply String.eqb_neq. }
  unfold view. rewrite Ht, Hl, He. reflexivity.
Qed.

Lemma failed_search_shows_only_banner_witness :
  view (fun _ => false) (fst (handleSearch offline_fetch "getgrass_io" initial))
  = Fulfilled (mk_screen false (Some "Failed to fetch"%string) None None).
Proof.
  apply failed_search_shows_only_banner.
  - reflexivity.
  - discriminate.
Defined.

(** *** The summary *)











(** A truthy report without top lists: rendering the summary throws. *)
Example report_without_lists :
  view (fun _ => false)
    (mk_state (Some one_week) (Some (JObject [])) false None)
  = Rejected (TypeError "Cannot read properties of undefined (reading 'map')").
Proof. reflexivity. Qed.

(** When the requests succeed but the weekly payload has no [data] (an
    object without that member, or a payload that is no object), the cell
    becomes [undefined] and rendering the page throws: reading [length] of
    [undefined]. *)
Theorem missing_data_breaks_render
  (coerced_positive : json_value -> bool)
  (fetch : fetch_type) (username : string) (s : state)
  (tweets timeSeriesJson reportJson : json_value) (first : js_value) :
  getUserTweets fetch username = Fulfilled tweets ->
  getWeeklyAnalysis fetch username = Fulfilled timeSeriesJson ->
  get_data timeSeriesJson = Fulfilled undefined ->
  getSentimentReports fetch username = Fulfilled reportJson ->
  get_0 reportJson = Fulfilled first ->
  error (fst (handleSearch fetch username s)) = None
  /\ view coerced_positive (fst (handleSearch fetch username s))
     = Rejected (TypeError "Cannot read properties of undefined (reading 'length')").
Proof.
  intros H1 H2 H3 H4 H5.
  rewrite handleSearch_steps, H1, H2, H3, H4, H5. cbv zeta. cbn [fst].
  split; reflexivity.
Qed.

Lemma missing_data_breaks_render_witness :
  error (fst (handleSearch bare_fetch "getgrass_io" initial)) = None
  /\ view (fun _ => false) (fst (handleSearch bare_fetch "getgrass_io" initial))
     = Rejected (TypeError "Cannot read properties of undefined (reading 'length')").
Proof.
  apply (missing_data_breaks_render (fun _ => false) bare_fetch "getgrass_io" initial
           (JArray []) (JArray []) (JArray []) undefined); reflexivity.
Defined.

End HomeFacts.
